(** * play_on_hdmi.py: a shallow embedding and its verified properties

    The program plays a video on the HDMI output of a Raspberry Pi by
    running [ffplay] under a sequence of SDL video back ends, and lists
    DRM connectors from sysfs and from [modetest -c].

    Conventions of the embedding.
    - A Python [str] is a [string]; a character is its code point, so the
      model covers the code points below 256.
    - A [dict] used as an environment is a [gmap string string].
    - What the program reads from its surroundings (search path, file
      system, the behaviour of child processes) is a field of [world];
      what it does to them (printing, running a tool, starting a child,
      sleeping, polling, waiting) is an [event] of the trace.
    - A Python computation is a [prog A]: the events it performed and how
      it ended (returned, raised, called [sys.exit], or blocked for ever). *)

From Stdlib Require Import ZArith NArith Ascii String DecimalString List Bool Lia.
From stdpp Require Import base option gmap strings list sorting.

Local Open Scope string_scope.
Local Open Scope Z_scope.

(** ** Python strings *)

Module PyStr.

Definition ord (c : ascii) : N := N_of_ascii c.

Definition between (lo hi : N) (c : ascii) : bool :=
  ((lo <=? ord c) && (ord c <=? hi))%N.

(** [str.isspace] on one character, which is also [\s] of [re] for
    [str] patterns: TAB..CR, FS..US, space, NEL and NBSP. *)
Definition isspace (c : ascii) : bool :=
  between 9 13 c || between 28 32 c || between 133 133 c || between 160 160 c.

(** [\d] of [re]: the decimal digits. *)
Definition isdecimal (c : ascii) : bool := between 48 57 c.

(** [str.isalnum] on one character. *)
Definition isalnum (c : ascii) : bool :=
  isdecimal c || between 65 90 c || between 97 122 c
  || between 170 170 c || between 178 179 c || between 181 181 c
  || between 185 186 c || between 188 190 c
  || between 192 214 c || between 216 246 c || between 248 255 c.

(** [\w] of [re]. *)
Definition isword (c : ascii) : bool := isalnum c || between 95 95 c.

(** [\S] of [re]. *)
Definition nonspace (c : ascii) : bool := negb (isspace c).

Definition is_empty (s : string) : bool :=
  match s with EmptyString => true | String _ _ => false end.

Fixpoint lstrip (s : string) : string :=
  match s with
  | EmptyString => EmptyString
  | String c s' => if isspace c then lstrip s' else s
  end.

Fixpoint rstrip (s : string) : string :=
  match s with
  | EmptyString => EmptyString
  | String c s' =>
      match rstrip s' with
      | EmptyString => if isspace c then EmptyString else String c EmptyString
      | r => String c r
      end
  end.

(** [s.strip()] *)
Definition strip (s : string) : string := rstrip (lstrip s).

(** [s.startswith(p)] *)
Definition startswith (p s : string) : bool := String.prefix p s.

(** [p in s] *)
Fixpoint contains (p s : string) : bool :=
  String.prefix p s
  || match s with
     | EmptyString => false
     | String _ s' => contains p s'
     end.

(** The line boundaries of [str.splitlines]: LF, VT, FF, CR, FS, GS, RS
    and NEL; CR LF is one boundary. *)
Definition is_linebreak (c : ascii) : bool :=
  between 10 13 c || between 28 30 c || between 133 133 c.

Definition rev_string (s : string) : string :=
  string_of_list_ascii (List.rev (list_ascii_of_string s)).

(** [cur] holds the current line, last character first. *)
Fixpoint splitlines_from (cur : string) (s : string) : list string :=
  match s with
  | EmptyString => if is_empty cur then [] else [rev_string cur]
  | String c s' =>
      if is_linebreak c then
        rev_string cur ::
          match s' with
          | String c' s'' =>
              if ((ord c =? 13) && (ord c' =? 10))%N
              then splitlines_from EmptyString s''
              else splitlines_from EmptyString s'
          | EmptyString => splitlines_from EmptyString s'
          end
      else splitlines_from (String c cur) s'
  end.

(** [s.splitlines()] *)
Definition splitlines (s : string) : list string :=
  splitlines_from EmptyString s.

(** [int(s)] for a string of decimal digits. *)
Definition int_digits (s : string) : Z :=
  fold_left (fun acc c => 10 * acc + (Z.of_N (ord c) - 48))
            (list_ascii_of_string s) 0.

Definition newline : string := String (ascii_of_nat 10) EmptyString.

(** The text whose lines are [ls], each ended by a line feed. *)
Definition unlines (ls : list string) : string :=
  fold_right (fun l acc => l ++ newline ++ acc) EmptyString ls.

End PyStr.

(** ** The regular expressions of the program

    Both patterns are sequences of single-character classes under a greedy
    quantifier, so a pattern is a list of [atom]s and a group is a run of
    consecutive atoms. Matching is [re.match]: anchored at the start of
    the string, longest repetition first, backing off one character at a
    time when the rest of the pattern fails. *)

Module Re.
Import PyStr.

Inductive quant := Once | Plus | Star.

Record atom := Atom { a_class : ascii -> bool; a_quant : quant }.

Record regex := Regex {
  atoms : list atom;
  groups : list (nat * nat)   (* first atom of the group, number of atoms *)
}.

(** Length of the longest prefix of [s] inside the class. *)
Fixpoint run_length (p : ascii -> bool) (s : string) : nat :=
  match s with
  | String c s' => if p c then S (run_length p s') else O
  | EmptyString => O
  end.

Fixpoint str_take (k : nat) (s : string) : string :=
  match k, s with
  | S k', String c s' => String c (str_take k' s')
  | _, _ => EmptyString
  end.

Fixpoint str_drop (k : nat) (s : string) : string :=
  match k, s with
  | S k', String _ s' => str_drop k' s'
  | _, _ => s
  end.

Definition min_count (q : quant) : nat :=
  match q with Star => 0%nat | _ => 1%nat end.

Definition max_count (q : quant) (run : nat) : nat :=
  match q with Once => Nat.min 1 run | _ => run end.

(** Try [k], [k-1], ... down to [lo] repetitions. *)
Fixpoint backtrack {R : Type} (try : nat -> option R) (lo k : nat) : option R :=
  if (k <? lo)%nat then None
  else match try k with
       | Some r => Some r
       | None => match k with
                 | O => None
                 | S k' => backtrack try lo k'
                 end
       end.

(** The text matched by each atom, in order. *)
Fixpoint match_atoms (ps : list atom) (s : string) : option (list string) :=
  match ps with
  | [] => Some []
  | a :: ps' =>
      backtrack
        (fun k => match match_atoms ps' (str_drop k s) with
                  | Some pieces => Some (str_take k s :: pieces)
                  | None => None
                  end)
        (min_count (a_quant a))
        (max_count (a_quant a) (run_length (a_class a) s))
  end.

Definition group_text (pieces : list string) (g : nat * nat) : string :=
  fold_right String.append EmptyString
             (firstn (snd g) (skipn (fst g) pieces)).

(** [re.match(r, s)]: the texts of the groups, [None] when there is no
    match. *)
Definition re_match (r : regex) (s : string) : option (list string) :=
  match match_atoms (atoms r) s with
  | Some pieces => Some (List.map (group_text pieces) (groups r))
  | None => None
  end.

(** [m.group(i)], counted from 1. *)
Definition group (i : nat) (m : list string) : string :=
  nth (pred i) m EmptyString.

Definition lit (x : ascii) : atom := Atom (Ascii.eqb x) Once.

(** [\s*(\d+)\s+(\d+)\s+(\w+)\s+(\S+)] *)
Definition row_re : regex :=
  Regex [ Atom isspace Star; Atom isdecimal Plus;
          Atom isspace Plus; Atom isdecimal Plus;
          Atom isspace Plus; Atom isword Plus;
          Atom isspace Plus; Atom nonspace Plus ]
        [ (1, 1); (3, 1); (5, 1); (7, 1) ]%nat.

(** [(\d+x\d+)] *)
Definition mode_re : regex :=
  Regex [ Atom isdecimal Plus; lit "x"; Atom isdecimal Plus ]
        [ (0, 3) ]%nat.

End Re.

Import PyStr Re.

(** ** Effects *)

(** The exceptions the program meets; all are subclasses of [Exception]. *)
Inductive exn :=
| RuntimeError (msg : string)
| OSError (msg : string)
| CalledProcessError (returncode : Z).

(** Every [print] of the program, with the values it formats. *)
Inductive message :=
| MsgNoSysConnectors
| MsgSysHeader
| MsgSysConnector (name status : string) (first_mode : option string)
| MsgModetestUnavailable
| MsgModetestHeader
| MsgModetestConnector (cid : Z) (ctype status : string) (modes : list string)
| MsgUsage
| MsgVideoNotFound (video : string)
| MsgModetestCannotParse
| MsgStillTryToPlay
| MsgNotListed (cid : Z)
| MsgStatusHint (cid : Z) (status : string)
| MsgNoModes (cid : Z)
| MsgFirstMode (cid : Z) (mode : string)
| MsgAttemptSetMode
| MsgRunning (cmd : list string)
| MsgModeSet
| MsgModetestFailed (e : exn)
| MsgCouldNotRun (e : exn)
| MsgPassForceMode
| MsgLaunching (driver : string)
| MsgDetached (pid : Z)
| MsgBackendFailed (b : string) (rc : Z)
| MsgAllFailed
| MsgLastError (e : exn).

Inductive event :=
| EvPrint (m : message)
| EvRun (cmd : list string)
    (* subprocess.run(cmd, ...) *)
| EvOverlay (n : nat) (b : string) (env : gmap string string)
    (* the loop body for candidate number n, named b, built its overlay *)
| EvPopen (n : nat) (cmd : list string) (env : gmap string string) (setsid : bool)
    (* subprocess.Popen(cmd, env=env, ..., preexec_fn=os.setsid or None) *)
| EvSleep (ms : Z)
| EvPoll (pid : Z)
| EvWait (pid : Z).

Inductive outcome (A : Type) :=
| Returned (a : A)
| Raised (e : exn)
| Exited (code : Z)          (* sys.exit(code) *)
| Blocked.                   (* a call that never comes back *)
Arguments Returned {A} a.
Arguments Raised {A} e.
Arguments Exited {A} code.
Arguments Blocked {A}.

Record prog (A : Type) := Prog { trace : list event; result : outcome A }.
Arguments Prog {A} trace result.
Arguments trace {A} p.
Arguments result {A} p.

#[global] Instance prog_ret : MRet prog := fun A a => Prog [] (Returned a).

#[global] Instance prog_bind : MBind prog := fun A B k m =>
  match result m with
  | Returned a => Prog (trace m ++ trace (k a)) (result (k a))
  | Raised e => Prog (trace m) (Raised e)
  | Exited c => Prog (trace m) (Exited c)
  | Blocked => Prog (trace m) Blocked
  end.

Definition emit (e : event) : prog unit := Prog [e] (Returned tt).
Definition print (m : message) : prog unit := emit (EvPrint m).
Definition raise {A : Type} (e : exn) : prog A := Prog [] (Raised e).
Definition sys_exit {A : Type} (code : Z) : prog A := Prog [] (Exited code).
Definition block {A : Type} : prog A := Prog [] Blocked.

(** [try: body except Exception as e: handler e]. [sys.exit] raises
    [SystemExit], which is not an [Exception], so it passes through. *)
Definition try_except {A : Type} (body : prog A) (handler : exn -> prog A) : prog A :=
  match result body with
  | Raised e => Prog (trace body ++ trace (handler e)) (result (handler e))
  | _ => body
  end.

(** [for x in xs: body x] *)
Fixpoint for_each {A : Type} (xs : list A) (body : A -> prog unit) : prog unit :=
  match xs with
  | [] => mret tt
  | x :: xs' => body x ;; for_each xs' body
  end.

(** The exit status of the interpreter after running [main]: 0 when it
    returns, the argument of [sys.exit], 1 after an uncaught exception;
    there is none when the program blocks for ever. *)
Definition exit_status (o : outcome unit) : option Z :=
  match o with
  | Returned _ => Some 0
  | Exited c => Some c
  | Raised _ => Some 1
  | Blocked => None
  end.

(** ** The surroundings of the program *)

(** What [subprocess.run] meets. *)
Inductive run_result :=
| Completed (returncode : Z) (stdout : string)
| CannotRun (msg : string).

(** A child started by [Popen]: it has exited when polled at the end of
    the probe, or it is still running then and terminates later with a
    code, or never. *)
Inductive child :=
| ExitsEarly (code : Z)
| Runs (final : option Z).

Inductive popen_result :=
| PopenRaises (e : exn)
| PopenOk (pid : Z) (c : child).

Record world := World {
  which : string -> option string;          (* shutil.which *)
  path_exists : string -> bool;             (* os.path.exists *)
  isdir : string -> bool;                   (* os.path.isdir *)
  listdir : string -> option (list string); (* os.listdir; None: it raises *)
  read_text : string -> option string;      (* open(p).read(); None: it raises *)
  run : list string -> run_result;          (* subprocess.run *)
  environ : gmap string string;             (* os.environ *)
  popen : nat -> popen_result               (* the Popen for candidate number n *)
}.

(** ** Connectors from sysfs *)

Module Sysfs.

Record sys_connector := SysConnector {
  name : string;
  path : string;
  status : string;
  first_mode : option string
}.

(** Lexical order of strings by code point, the order of [sorted]. *)
Definition str_le (a b : string) : Prop := String.leb a b = true.

#[global] Instance str_le_dec : RelDecision str_le.
Proof. intros a b. unfold str_le. apply _. Defined.

(** [sorted(l)] for a list of strings. *)
Definition sorted (l : list string) : list string := merge_sort str_le l.

(** [os.path.join(a, b)] *)
Definition path_join (a b : string) : string :=
  if startswith "/" b then b
  else if is_empty a || startswith "/" (rev_string a) then a ++ b
  else a ++ "/" ++ b.

(** [f.readlines()]: the lines of a text, each with its line feed. *)
Fixpoint readlines_from (cur : string) (s : string) : list string :=
  match s with
  | EmptyString => if is_empty cur then [] else [rev_string cur]
  | String c s' =>
      if (ord c =? 10)%N
      then rev_string (String c cur) :: readlines_from EmptyString s'
      else readlines_from (String c cur) s'
  end.
Definition readlines (s : string) : list string := readlines_from EmptyString s.

(** [entry.startswith("card") and "-" in entry] *)
Definition is_connector_entry (entry : string) : bool :=
  startswith "card" entry && contains "-" entry.

(** The body of the loop for one entry that passed the test. *)
Definition connector_info (w : world) (sysdrm entry : string) : sys_connector :=
  let path := path_join sysdrm entry in
  let status :=
    match read_text w (path_join path "status") with
    | Some text => strip text
    | None => "unknown"
    end in
  let first_mode :=
    match read_text w (path_join path "modes") with
    | Some text =>
        let modes := List.map strip
                       (List.filter (fun ln => negb (is_empty (strip ln)))
                                    (readlines text)) in
        match modes with
        | m :: _ => Some m
        | [] => None
        end
    | None => None
    end in
  SysConnector entry path status first_mode.

Fixpoint scan_entries (w : world) (sysdrm : string) (entries : list string)
         (connectors : list sys_connector) : list sys_connector :=
  match entries with
  | [] => connectors
  | entry :: rest =>
      if is_connector_entry entry
      then scan_entries w sysdrm rest (connectors ++ [connector_info w sysdrm entry])
      else scan_entries w sysdrm rest connectors
  end.

Definition list_sys_drm_connectors (w : world) : prog (list sys_connector) :=
  let sysdrm := "/sys/class/drm" in
  if negb (isdir w sysdrm) then mret []
  else match listdir w sysdrm with
       | None => raise (OSError "listdir")
       | Some entries => mret (scan_entries w sysdrm (sorted entries) [])
       end.

Definition print_sys_connectors (conn : list sys_connector) : prog unit :=
  match conn with
  | [] => print MsgNoSysConnectors
  | _ =>
      print MsgSysHeader ;;
      for_each conn (fun c => print (MsgSysConnector (name c) (status c) (first_mode c)))
  end.

End Sysfs.

(** ** Connectors from [modetest -c] *)

Module Modetest.

Record connector := Connector {
  conn_id : Z;
  conn_type : string;
  conn_status : string;
  conn_modes : list string
}.

(** [subprocess.run(cmd, ..., check=True)], giving [p.stdout]. *)
Definition subprocess_run (w : world) (cmd : list string) : prog string :=
  emit (EvRun cmd) ;;
  match run w cmd with
  | Completed rc out => if rc =? 0 then mret out else raise (CalledProcessError rc)
  | CannotRun msg => raise (OSError msg)
  end.

(** The cursor [i] into [out] is kept as the lines from [i] on, [out[i:]].

    [while i < len(out) and marker not in out[i]: i += 1] *)
Fixpoint seek (marker : string) (out : list string) : list string :=
  match out with
  | [] => []
  | line :: rest => if contains marker line then out else seek marker rest
  end.

(** [while i < len(out) and out[i].strip(): ...; i += 1], collecting the
    mode names; gives the modes and the lines left. *)
Fixpoint collect_modes (out : list string) (modes : list string)
  : list string * list string :=
  match out with
  | [] => (modes, [])
  | line :: rest =>
      let mode_line := strip line in
      if is_empty mode_line then (modes, out)
      else match re_match mode_re mode_line with
           | Some mm => collect_modes rest (modes ++ [group 1 mm])
           | None => collect_modes rest modes
           end
  end.

(** The part of the loop body that runs once a row matched: look for the
    [modes:] block after the row and collect its modes. *)
Definition block_modes (rest : list string) : list string * list string :=
  match seek "modes:" rest with
  | [] => ([], [])
  | line :: rest' =>
      if contains "modes:" line then collect_modes rest' []
      else ([], line :: rest')
  end.

(** [while i < len(out): ...], the loop over connector blocks. Every turn
    moves the cursor forward, so [length out] turns are enough; [fuel]
    bounds the number of turns. *)
Fixpoint parse_blocks_fuel (fuel : nat) (out : list string)
         (connectors : list connector) : list connector :=
  match fuel with
  | O => connectors
  | S fuel' =>
      match out with
      | [] => connectors
      | line :: rest =>
          if is_empty (strip line) then parse_blocks_fuel fuel' rest connectors
          else match re_match row_re line with
               | Some m =>
                   let cid := int_digits (group 1 m) in
                   let status := group 3 m in
                   let ctype := group 4 m in
                   let '(modes, out') := block_modes rest in
                   parse_blocks_fuel fuel' out'
                     (connectors ++ [Connector cid ctype status modes])
               | None => parse_blocks_fuel fuel' rest connectors
               end
      end
  end.

Definition parse_blocks (out : list string) (connectors : list connector)
  : list connector :=
  parse_blocks_fuel (length out) out connectors.

(** The function from the line after [out = p.stdout.splitlines()] on. *)
Definition parse_report (out : list string) : option (list connector) :=
  match seek "Connectors:" out with
  | [] => None
  | _ :: out1 =>
      let out2 :=
        match out1 with
        | line :: rest => if startswith "id" (strip line) then rest else out1
        | [] => out1
        end in
      Some (parse_blocks out2 [])
  end.

Definition modetest_list_connectors (w : world) : prog (option (list connector)) :=
  match which w "modetest" with
  | None => mret None
  | Some modetest =>
      out ← try_except
              (stdout ← subprocess_run w [modetest; "-c"];
               mret (Some (splitlines stdout)))
              (fun e => match e with
                        | CalledProcessError _ => mret None
                        | _ => raise e
                        end);
      match out with
      | None => mret None
      | Some out => mret (parse_report out)
      end
  end.

Definition modetest_set_mode (w : world) (connector_id : Z) (mode : string)
           (show : Z -> string) : prog unit :=
  match which w "modetest" with
  | None => raise (RuntimeError "modetest not installed (libdrm-tests). Install it to use --connector-id forcing.")
  | Some modetest =>
      let cmd := ["sudo"; modetest; "-s"; show connector_id ++ ":" ++ mode] in
      print (MsgRunning cmd) ;;
      _ ← subprocess_run w cmd;
      mret tt
  end.

End Modetest.

(** ** The launcher *)

Module Launcher.
Import Sysfs Modetest.

Definition find_ffplay (w : world) : option string := which w "ffplay".

(** [proc.poll()] after the probe, and [proc.wait()]. *)
Definition poll (pid : Z) (c : child) : prog (option Z) :=
  emit (EvPoll pid) ;;
  mret (match c with ExitsEarly code => Some code | Runs _ => None end).

Definition wait (pid : Z) (c : child) : prog Z :=
  emit (EvWait pid) ;;
  match c with
  | ExitsEarly code => mret code
  | Runs (Some code) => mret code
  | Runs None => block
  end.

(** [n] numbers the attempt: it selects what the n-th [Popen] meets. *)
Definition try_play_ffplay (w : world) (n : nat) (video_path : string)
           (backend_env : gmap string string) (detach : bool)
           (timeout_probe : Z) : prog Z :=
  match find_ffplay w with
  | None => raise (RuntimeError "ffplay not found. Install ffmpeg (ffplay).")
  | Some ffplay =>
      let env := if decide (backend_env = ∅) then environ w
                 else backend_env ∪ environ w in
      let cmd := [ffplay; "-fs"; "-autoexit"; "-hide_banner";
                  "-loglevel"; "error"; video_path] in
      print (MsgLaunching (default "<default>" (env !! "SDL_VIDEODRIVER"))) ;;
      emit (EvPopen n cmd env detach) ;;
      match popen w n with
      | PopenRaises e => raise e
      | PopenOk pid proc =>
          emit (EvSleep (1000 * timeout_probe)) ;;
          code ← poll pid proc;
          match code with
          | None =>
              if detach then print (MsgDetached pid) ;; mret 0
              else wait pid proc
          | Some code => mret code
          end
      end
  end.

(** The overlay the loop of [main] builds for candidate [b]. *)
Definition backend_overlay (w : world) (b : string) : gmap string string :=
  if String.eqb b "kmsdrm" then <["SDL_VIDEODRIVER" := "kmsdrm"]> ∅
  else if String.eqb b "fbcon" then
    let env := <["SDL_VIDEODRIVER" := "fbcon"]> ∅ in
    if path_exists w "/dev/fb0" then <["SDL_FBDEV" := "/dev/fb0"]> env else env
  else ∅.

(** [for b in backends: ...] and what follows it in [main]; [n] is the
    number of the candidate at the head of [backends]. *)
Fixpoint try_backends (w : world) (video : string) (detach : bool) (n : nat)
         (backends : list string) (last_err : option exn) : prog unit :=
  match backends with
  | [] =>
      print MsgAllFailed ;;
      match last_err with
      | Some e => print (MsgLastError e)
      | None => mret tt
      end ;;
      sys_exit 3
  | b :: rest =>
      let env := backend_overlay w b in
      emit (EvOverlay n b env) ;;
      '(rc, last_err') ←
        try_except
          (rc ← try_play_ffplay w n video env detach 2; mret (rc, last_err))
          (fun e => mret (1, Some e));
      if rc =? 0 then mret tt
      else
        print (MsgBackendFailed b rc) ;;
        try_backends w video detach (S n) rest last_err'
  end.

(** The backend-fallback launcher: the loop over the candidates. *)
Definition launch (w : world) (video : string) (backends : list string)
           (detach : bool) : prog unit :=
  try_backends w video detach 0 backends None.

(** The values [--backend] accepts. *)
Inductive backend_choice := Auto | Kmsdrm | Fbcon | Default.

Definition backend_name (b : backend_choice) : string :=
  match b with
  | Auto => "auto"
  | Kmsdrm => "kmsdrm"
  | Fbcon => "fbcon"
  | Default => "default"
  end.

(** The result of [parser.parse_args()]. *)
Record args := Args {
  video : option string;
  list_connectors : bool;
  connector_id : option Z;
  force_mode : bool;
  backend : backend_choice;
  detach : bool
}.

Definition backends_of (b : backend_choice) : list string :=
  if String.eqb (backend_name b) "auto" then ["kmsdrm"; "fbcon"; "default"]
  else [backend_name b].

Definition show_int (z : Z) : string :=
  DecimalString.NilZero.string_of_int (Z.to_int z).

(** [if args.connector_id is not None: ...] *)
Definition prepare_connector (w : world) (a : args) : prog unit :=
  match connector_id a with
  | None => mret tt
  | Some cid =>
      mt ← modetest_list_connectors w;
      match mt with
      | None => print MsgModetestCannotParse ;; print MsgStillTryToPlay
      | Some mt =>
          match List.filter (fun c => conn_id c =? cid) mt with
          | [] => print (MsgNotListed cid)
          | c :: _ =>
              (if negb (String.eqb (conn_status c) "connected")
               then print (MsgStatusHint cid (conn_status c)) else mret tt) ;;
              match conn_modes c with
              | [] => print (MsgNoModes cid)
              | chosen_mode :: _ =>
                  print (MsgFirstMode cid chosen_mode) ;;
                  if force_mode a then
                    print MsgAttemptSetMode ;;
                    try_except
                      (modetest_set_mode w cid chosen_mode show_int ;;
                       print MsgModeSet ;;
                       emit (EvSleep 800))
                      (fun e => match e with
                                | CalledProcessError _ => print (MsgModetestFailed e)
                                | _ => print (MsgCouldNotRun e)
                                end)
                  else print MsgPassForceMode
              end
          end
      end
  end.

Definition main (w : world) (a : args) : prog unit :=
  if list_connectors a then
    syscon ← list_sys_drm_connectors w;
    print_sys_connectors syscon ;;
    mt ← modetest_list_connectors w;
    match mt with
    | None => print MsgModetestUnavailable
    | Some mt =>
        print MsgModetestHeader ;;
        for_each mt (fun c =>
          print (MsgModetestConnector (conn_id c) (conn_type c) (conn_status c)
                                      (firstn 3 (conn_modes c))))
    end
  else
    match video a with
    | None | Some EmptyString => print MsgUsage ;; sys_exit 1
    | Some video =>
        if negb (path_exists w video) then
          print (MsgVideoNotFound video) ;; sys_exit 2
        else
          prepare_connector w a ;;
          launch w video (backends_of (backend a)) (detach a)
    end.

End Launcher.

(** * Observations on runs

    What the properties below speak about: the events of a trace that
    belong to a candidate, sample worlds, and the statements of the
    specification that a run is tested against. *)

Import Sysfs Modetest Launcher.

(** A world with the five kinds of entry the source comment lists. *)
Definition sysfs_demo : world :=
  World (fun _ => None) (fun _ => false)
        (fun p => String.eqb p "/sys/class/drm")
        (fun _ => Some ["version"; "renderD128"; "card0-HDMI-A-2"; "card0";
                        "card0-HDMI-A-1"])
        (fun p => if String.eqb p "/sys/class/drm/card0-HDMI-A-1/status"
                  then Some ("connected" ++ newline)
                  else if String.eqb p "/sys/class/drm/card0-HDMI-A-1/modes"
                  then Some (unlines ["1920x1080"; "1280x720"])
                  else None)
        (fun _ => CannotRun "no such file")
        ∅
        (fun _ => PopenRaises (OSError "no such file")).

Definition sysfs_demo_connectors : list sys_connector :=
  [ SysConnector "card0-HDMI-A-1" "/sys/class/drm/card0-HDMI-A-1"
                 "connected" (Some "1920x1080");
    SysConnector "card0-HDMI-A-2" "/sys/class/drm/card0-HDMI-A-2"
                 "unknown" None ].

Definition sample_row : string := "29 10 connected HDMI-A".

Definition sample_connector : connector :=
  Connector 29 "HDMI-A" "connected" ["1920x1080"].

(** The report of the claim, as the text [modetest -c] prints. *)
Definition sample_report : string :=
  unlines ["Connectors:"; sample_row; "modes:"; "1920x1080"].

(** The same rows in the layout of a real report: a line of column names
    after the header, tabs between the columns, property lines between
    the row and its indented [modes:] block, mode lines with timings. *)
Definition sample_report_tabs : string :=
  unlines [ "Encoders:"; "id	crtc	type";
            "";
            "Connectors:";
            "id	encoder	status		name		size (mm)	modes	encoders";
            "29	10	connected	HDMI-A	530x300		2	10";
            "  props:";
            "  modes:";
            "	name refresh (Hz) hdisp hss hse htot";
            "  1920x1080 60 1920 2008 2052 2200";
            "" ].

(** A world where only [modetest] is installed and answers [r]. *)
Definition tool_world (r : run_result) : world :=
  World (fun exe => if String.eqb exe "modetest" then Some "/usr/bin/modetest"
                    else None)
        (fun _ => false) (fun _ => false) (fun _ => None) (fun _ => None)
        (fun _ => r)
        ∅
        (fun _ => PopenRaises (OSError "no such file")).

Definition sample_world : world := tool_world (Completed 0 sample_report).

Definition player_env (w : world) (backend_env : gmap string string)
  : gmap string string :=
  if decide (backend_env = ∅) then environ w else backend_env ∪ environ w.

Definition player_cmd (ffplay video_path : string) : list string :=
  [ffplay; "-fs"; "-autoexit"; "-hide_banner"; "-loglevel"; "error"; video_path].

(** The events of an attempt up to and including the [Popen]. *)
Definition start_events (w : world) (n : nat) (ffplay video_path : string)
           (backend_env : gmap string string) (detach : bool) : list event :=
  [ EvPrint (MsgLaunching
               (default "<default>" (player_env w backend_env !! "SDL_VIDEODRIVER")));
    EvPopen n (player_cmd ffplay video_path) (player_env w backend_env) detach ].

Definition is_wait (e : event) : bool :=
  match e with EvWait _ => true | _ => false end.

(** A world where [ffplay] is installed and every child behaves as [c]. *)
Definition player_world (c : child) : world :=
  World (fun exe => if String.eqb exe "ffplay" then Some "/usr/bin/ffplay" else None)
        (fun _ => true) (fun _ => false) (fun _ => None) (fun _ => None)
        (fun _ => CannotRun "no such file")
        ∅
        (fun n => PopenOk (100 + Z.of_nat n) c).

(** The number of the candidate an event belongs to: the loop body that
    built an overlay, or the [Popen] that started a child. *)
Definition attempt_of (e : event) : option nat :=
  match e with
  | EvOverlay n _ _ => Some n
  | EvPopen n _ _ _ => Some n
  | _ => None
  end.

Definition attempted (t : list event) : list nat := omap attempt_of t.

(** The candidates whose overlay was built, and the children started. *)
Definition overlays (t : list event) : list string :=
  omap (fun e => match e with EvOverlay _ b _ => Some b | _ => None end) t.

Definition popens (t : list event) : list nat :=
  omap (fun e => match e with EvPopen n _ _ _ => Some n | _ => None end) t.

(** The candidates reported as failed, with the code reported. *)
Definition failures (t : list event) : list (string * Z) :=
  omap (fun e => match e with
                 | EvPrint (MsgBackendFailed b rc) => Some (b, rc)
                 | _ => None
                 end) t.

(** The child of attempt [k] is still running at the poll, and ends
    later as [final] says. *)
Definition running_at (w : world) (k : nat) (final : option Z) : Prop :=
  find_ffplay w <> None /\ exists pid, popen w k = PopenOk pid (Runs final).

Definition first_running (w : world) (k : nat) : Prop :=
  (forall j final, (j < k)%nat -> ~ running_at w j final)
  /\ exists final, running_at w k final.

(** No overlay is built and no child is started for a candidate after
    number [k]. *)
Definition none_after (k : nat) (t : list event) : Prop :=
  Forall (fun m => (m <= k)%nat) (attempted t).

(** The claim C1 as the specification states it, for one run: whatever
    [detach] is and however the child of candidate [k] ends. *)
Definition stops_at_first_running (w : world) (video : string)
           (cands : list string) (detach : bool) (k : nat) : Prop :=
  (k < length cands)%nat ->
  first_running w k ->
  none_after k (trace (launch w video cands detach)).

Definition not_found : exn :=
  RuntimeError "ffplay not found. Install ffmpeg (ffplay).".

(** A world with neither [ffplay] nor [modetest]. *)
Definition bare_world : world :=
  World (fun _ => None) (fun _ => false) (fun _ => false) (fun _ => None)
        (fun _ => None) (fun _ => CannotRun "no such file") ∅
        (fun _ => PopenRaises (OSError "no such file")).

(** The claim C2 as the specification states it, for one run: no
    candidate's environment is set up, no child is started, and no later
    candidate is fallen back to. *)
Definition fails_before_any_candidate (w : world) (video : string)
           (cands : list string) (detach : bool) : Prop :=
  find_ffplay w = None ->
  overlays (trace (launch w video cands detach)) = []
  /\ popens (trace (launch w video cands detach)) = []
  /\ failures (trace (launch w video cands detach)) = [].

(** The claim C3 as the specification states it, for one turn of the
    loop: whatever the exit code, the failure is reported with it and the
    run continues with the next candidate. *)
Definition early_exit_is_failure (w : world) (video : string) (detach : bool)
           (n : nat) (b : string) (rest : list string) (code : Z) : Prop :=
  (exists ffplay pid, find_ffplay w = Some ffplay
                      /\ popen w n = PopenOk pid (ExitsEarly code)) ->
  exists pre,
    try_backends w video detach n (b :: rest) None
    = Prog (pre ++ EvPrint (MsgBackendFailed b code)
                :: trace (try_backends w video detach (S n) rest None))
           (result (try_backends w video detach (S n) rest None)).

(** The claim C7 as the specification states it, for one invocation. *)
Definition missing_video_always_exits_2 (w : world) (a : args) : Prop :=
  forall v, video a = Some v -> path_exists w v = false ->
            exit_status (result (main w a)) = Some 2
            /\ popens (trace (main w a)) = [].

(** ** Shapes of parsed fields *)

(** Every character of [s] is in the class. *)
Fixpoint all_chars (p : ascii -> bool) (s : string) : bool :=
  match s with
  | EmptyString => true
  | String c s' => p c && all_chars p s'
  end.

(** A mode name: decimal digits, an "x", decimal digits. *)
Definition is_mode_name (m : string) : Prop :=
  exists a b,
    m = a ++ "x" ++ b
    /\ a <> "" /\ all_chars isdecimal a = true
    /\ b <> "" /\ all_chars isdecimal b = true.

(** The fields a row of the report can give. *)
Definition wellformed (c : connector) : Prop :=
  0 <= conn_id c
  /\ conn_status c <> "" /\ all_chars isword (conn_status c) = true
  /\ conn_type c <> "" /\ all_chars nonspace (conn_type c) = true
  /\ Forall is_mode_name (conn_modes c).

(** The record comes from the row [line]. *)
Definition from_row (line : string) (c : connector) : Prop :=
  is_empty (strip line) = false
  /\ exists m, re_match row_re line = Some m
               /\ conn_id c = int_digits (group 1 m)
               /\ conn_status c = group 3 m
               /\ conn_type c = group 4 m.

(** What an atom of a pattern may match. *)
Definition piece_ok (a : atom) (piece : string) : Prop :=
  all_chars (a_class a) piece = true
  /\ (min_count (a_quant a) <= String.length piece)%nat
  /\ (a_quant a = Once -> String.length piece = 1%nat).

(** ** What the attempts of a run meet *)

(** The exception attempt [n] ends with, if it raises. *)
Definition attempt_exn (w : world) (n : nat) : option exn :=
  match find_ffplay w with
  | None => Some not_found
  | Some _ =>
      match popen w n with
      | PopenRaises e => Some e
      | PopenOk _ _ => None
      end
  end.

(** The exception of the last attempt that raises among attempts
    [n], ..., [n + count - 1]; [last_err] when none does. *)
Fixpoint last_exn (w : world) (n count : nat) (last_err : option exn) : option exn :=
  match count with
  | O => last_err
  | S count' =>
      last_exn w (S n) count'
               (match attempt_exn w n with
                | Some e => Some e
                | None => last_err
                end)
  end.

(** What the launcher may do to processes: it runs no tool, sleeps only
    for the two seconds of a probe, and waits only when not detaching. *)
Definition launcher_event (detach : bool) (e : event) : Prop :=
  match e with
  | EvRun _ => False
  | EvSleep ms => ms = 2000
  | EvWait _ => detach = false
  | _ => True
  end.

(** How the launcher starts a child for candidate [b]. *)
Definition popen_as_for (w : world) (video : string) (detach : bool)
           (cands : list string) (e : event) : Prop :=
  match e with
  | EvPopen m cmd env setsid =>
      setsid = detach
      /\ (exists ffplay, find_ffplay w = Some ffplay
                         /\ cmd = [ffplay; "-fs"; "-autoexit"; "-hide_banner";
                                   "-loglevel"; "error"; video])
      /\ (exists b, cands !! m = Some b
                    /\ forall k, env !! k
                                 = match backend_overlay w b !! k with
                                   | Some v => Some v
                                   | None => environ w !! k
                                   end)
  | _ => True
  end.

(** The events of one attempt: not an overlay and not a report of the
    loop. *)
Definition attempt_event (e : event) : bool :=
  match e with
  | EvOverlay _ _ _ => false
  | EvPrint (MsgBackendFailed _ _) => false
  | EvPrint MsgAllFailed => false
  | EvPrint (MsgLastError _) => false
  | _ => true
  end.

(** A world where [ffplay] is installed, the first [Popen] raises and
    every later child exits at once with code 1. *)
Definition mixed_world : world :=
  World (fun exe => if String.eqb exe "ffplay" then Some "/usr/bin/ffplay" else None)
        (fun _ => true) (fun _ => false) (fun _ => None) (fun _ => None)
        (fun _ => CannotRun "no such file")
        {[ "HOME" := "/root"; "SDL_VIDEODRIVER" := "x11" ]}
        (fun n => match n with
                  | O => PopenRaises (OSError "exec format error")
                  | S _ => PopenOk (100 + Z.of_nat n) (ExitsEarly 1)
                  end).

(** ** The parts of [prepare_connector] *)

(** The [try] block around [modetest_set_mode] with its two handlers. *)
Definition set_mode_attempt (w : world) (cid : Z) (chosen_mode : string) : prog unit :=
  try_except
    (modetest_set_mode w cid chosen_mode show_int ;;
     print MsgModeSet ;;
     emit (EvSleep 800))
    (fun e => match e with
              | CalledProcessError _ => print (MsgModetestFailed e)
              | _ => print (MsgCouldNotRun e)
              end).


(** The command that sets a mode. *)
Definition set_mode_cmd (modetest : string) (cid : Z) (mode : string) : list string :=
  ["sudo"; modetest; "-s"; show_int cid ++ ":" ++ mode].

Definition is_run (e : event) : bool :=
  match e with EvRun _ => true | _ => false end.


(** * Properties *)

(** ** The models on small inputs *)

Example strip_ex : strip "  	modes: 	" = "modes:".
Proof. reflexivity. Qed.

Example row_ex :
  re_match row_re "29	10	connected	HDMI-A-1       	530x300"
  = Some ["29"; "10"; "connected"; "HDMI-A-1"].
Proof. reflexivity. Qed.

Example row_backtracks_ex :
  re_match (Regex [Atom isword Plus; Atom isdecimal Once] [(0, 1); (1, 1)]%nat) "ab12"
  = Some ["ab1"; "2"].
Proof. reflexivity. Qed.

Example mode_ex : re_match mode_re "1920x1080 60.00 1920 2008" = Some ["1920x1080"].
Proof. reflexivity. Qed.

Example mode_hash_ex : re_match mode_re "#0 1920x1080 60.00" = None.
Proof. reflexivity. Qed.

Example splitlines_ex :
  splitlines (unlines ["a"; ""; "b c"]) = ["a"; ""; "b c"].
Proof. reflexivity. Qed.

Example path_join_ex :
  Sysfs.path_join "/sys/class/drm" "card0-HDMI-A-1" = "/sys/class/drm/card0-HDMI-A-1".
Proof. reflexivity. Qed.

(** ** The order of [sorted] *)

Section StringOrder.
Import Sysfs.

Lemma ascii_compare_N (a b : ascii) :
  Ascii.compare a b = (N_of_ascii a ?= N_of_ascii b)%N.
Proof. reflexivity. Qed.

Lemma string_leb_trans (s1 s2 s3 : string) :
  String.leb s1 s2 = true -> String.leb s2 s3 = true -> String.leb s1 s3 = true.
Proof.
  unfold String.leb. revert s2 s3.
  induction s1 as [|a s1 IH]; intros [|b s2] [|c s3]; simpl; try congruence.
  rewrite !ascii_compare_N.
  destruct (N.compare_spec (N_of_ascii a) (N_of_ascii b)) as [Hab|Hab|Hab];
    destruct (N.compare_spec (N_of_ascii b) (N_of_ascii c)) as [Hbc|Hbc|Hbc];
    destruct (N.compare_spec (N_of_ascii a) (N_of_ascii c)) as [Hac|Hac|Hac];
    try congruence; try lia.
  apply IH.
Qed.

#[global] Instance str_le_trans : Transitive str_le.
Proof. intros s1 s2 s3. apply string_leb_trans. Qed.

#[global] Instance str_le_total : Total str_le.
Proof. intros s1 s2. apply String.leb_total. Qed.

#[global] Instance str_le_antisym : AntiSymm (=) str_le.
Proof. intros s1 s2. apply String.leb_antisym. Qed.

Lemma sorted_strongly (l : list string) : StronglySorted str_le (sorted l).
Proof. apply StronglySorted_merge_sort; apply _. Qed.

Lemma sorted_perm (l : list string) : sorted l ≡ₚ l.
Proof. apply merge_sort_Permutation. Qed.

(** [sorted] is determined by the order: any ordered rearrangement of
    the list is [sorted l], whatever the algorithm. *)
Lemma sorted_unique (l l' : list string) :
  StronglySorted str_le l' -> l' ≡ₚ l -> l' = sorted l.
Proof.
  intros Hs Hp. apply (StronglySorted_unique str_le); auto using sorted_strongly.
  by rewrite Hp, sorted_perm.
Qed.

Lemma strongly_sorted_filter (f : string -> bool) (l : list string) :
  StronglySorted str_le l -> StronglySorted str_le (List.filter f l).
Proof.
  induction 1 as [|x l Hl IH Hx]; simpl; [constructor|].
  destruct (f x); [|exact IH].
  constructor; [exact IH|].
  rewrite List.Forall_forall in *. intros y Hy.
  apply Hx. apply List.filter_In in Hy. tauto.
Qed.

End StringOrder.

(** ** The sysfs scan *)

Section SysfsScan.
Import Sysfs.

Lemma scan_entries_names (w : world) (d : string) (entries : list string)
      (acc : list sys_connector) :
  List.map name (scan_entries w d entries acc)
  = (List.map name acc ++ List.filter is_connector_entry entries)%list.
Proof.
  revert acc. induction entries as [|e entries IH]; intros acc; simpl.
  - by rewrite app_nil_r.
  - destruct (is_connector_entry e); rewrite IH; [|done].
    by rewrite List.map_app, <- app_assoc.
Qed.

Example sysfs_demo_scan :
  list_sys_drm_connectors sysfs_demo = Prog [] (Returned sysfs_demo_connectors).
Proof. vm_compute. reflexivity. Qed.

(** The scan returns unless [os.listdir] raises on an existing directory. *)
Lemma sysfs_scan_returns (w : world) :
  (isdir w "/sys/class/drm" = true -> is_Some (listdir w "/sys/class/drm")) ->
  exists conns, list_sys_drm_connectors w = Prog [] (Returned conns).
Proof.
  intros H. unfold list_sys_drm_connectors.
  destruct (isdir w "/sys/class/drm"); simpl; [|eauto].
  destruct H as [entries ->]; [done|]. eauto.
Qed.

(** C10. Every record the sysfs scan returns has a name that starts with
    "card" and contains "-"; entries of another shape ("card0",
    "renderD128", "version") never appear; and the names are those of
    the directory entries that pass the test, in sorted (lexical) order. *)
Theorem sysfs_connector_names (w : world) (conns : list sys_connector) :
  result (list_sys_drm_connectors w) = Returned conns ->
  Forall (fun c => startswith "card" (name c) = true
                   /\ contains "-" (name c) = true) conns
  /\ (forall e, is_connector_entry e = false -> ~ In e (List.map name conns))
  /\ (is_connector_entry "card0" = false
      /\ is_connector_entry "renderD128" = false
      /\ is_connector_entry "version" = false)
  /\ StronglySorted str_le (List.map name conns)
  /\ ((isdir w "/sys/class/drm" = false /\ conns = [])
      \/ exists entries,
           listdir w "/sys/class/drm" = Some entries
           /\ List.map name conns
              = List.filter is_connector_entry (sorted entries)).
Proof.
  unfold list_sys_drm_connectors.
  destruct (isdir w "/sys/class/drm") eqn:Hdir; simpl.
  - destruct (listdir w "/sys/class/drm") as [entries|] eqn:Hls; simpl; [|done].
    intros [= <-].
    pose proof (scan_entries_names w "/sys/class/drm" (sorted entries) []) as Hn.
    simpl in Hn.
    assert (Hall : forall e, In e (List.map name
                     (scan_entries w "/sys/class/drm" (sorted entries) [])) ->
                   is_connector_entry e = true).
    { intros e. rewrite Hn. intros He. apply List.filter_In in He. tauto. }
    repeat split.
    + apply List.Forall_forall. intros c Hc.
      apply andb_true_iff. apply Hall. by apply List.in_map.
    + intros e He Hin. apply Hall in Hin. congruence.
    + rewrite Hn. apply strongly_sorted_filter, sorted_strongly.
    + right. eauto.
  - intros [= <-].
    split; [constructor|]. split; [intros e _ []|].
    split; [done|]. split; [constructor|]. by left.
Qed.

Lemma sysfs_connector_names_witness :
  result (list_sys_drm_connectors sysfs_demo) = Returned sysfs_demo_connectors
  /\ Forall (fun c => startswith "card" (name c) = true
                      /\ contains "-" (name c) = true) sysfs_demo_connectors.
Proof.
  split; [vm_compute; reflexivity|].
  apply (sysfs_connector_names sysfs_demo). vm_compute. reflexivity.
Defined.

End SysfsScan.

(** ** The [modetest -c] report *)

Section ModetestReport.
Import Modetest.

Lemma seek_skip (marker : string) (pre rest : list string) :
  Forall (fun l => contains marker l = false) pre ->
  seek marker (pre ++ rest) = seek marker rest.
Proof.
  induction 1 as [|l pre Hl _ IH]; simpl; [done|]. by rewrite Hl.
Qed.

Lemma seek_none (marker : string) (out : list string) :
  Forall (fun l => contains marker l = false) out -> seek marker out = [].
Proof.
  intros H. rewrite <- (app_nil_r out). by rewrite seek_skip.
Qed.

Lemma seek_length (marker : string) (out : list string) :
  (length (seek marker out) <= length out)%nat.
Proof.
  induction out as [|l out IH]; simpl; [lia|].
  destruct (contains marker l); simpl; lia.
Qed.

Lemma collect_modes_length (out modes : list string) :
  (length (snd (collect_modes out modes)) <= length out)%nat.
Proof.
  revert modes. induction out as [|l out IH]; intros modes; simpl; [lia|].
  destruct (is_empty (strip l)); simpl; [lia|].
  destruct (re_match mode_re (strip l)) as [mm|].
  - specialize (IH (modes ++ [group 1 mm])%list). lia.
  - specialize (IH modes). lia.
Qed.

Lemma block_modes_length (rest : list string) :
  (length (snd (block_modes rest)) <= length rest)%nat.
Proof.
  unfold block_modes. pose proof (seek_length "modes:" rest) as Hs.
  destruct (seek "modes:" rest) as [|l rest']; simpl in *; [lia|].
  destruct (contains "modes:" l); simpl; [|lia].
  pose proof (collect_modes_length rest' []). lia.
Qed.

(** The loop over the blocks never runs out of turns: any bound from
    [length out] on gives the same connectors. *)
Lemma parse_blocks_fuel_enough (fuel : nat) (out : list string)
      (acc : list connector) :
  (length out <= fuel)%nat ->
  parse_blocks_fuel fuel out acc = parse_blocks out acc.
Proof.
  unfold parse_blocks.
  remember (length out) as n eqn:Hn.
  assert (Hle : (length out <= n)%nat) by lia. clear Hn.
  revert fuel out acc Hle.
  induction n as [|n IH]; intros fuel out acc Hle Hfuel.
  - destruct out; [|simpl in Hle; lia]. by destruct fuel.
  - destruct fuel as [|fuel]; [lia|].
    destruct out as [|line rest]; [done|]. simpl in Hle. simpl.
    destruct (is_empty (strip line)).
    + rewrite (IH fuel) by lia. symmetry. apply IH; lia.
    + destruct (re_match row_re line) as [m|].
      * pose proof (block_modes_length rest) as Hb.
        destruct (block_modes rest) as [modes out']. simpl in Hb.
        rewrite (IH fuel) by lia. symmetry. apply IH; lia.
      * rewrite (IH fuel) by lia. symmetry. apply IH; lia.
Qed.

(** The three ways through one turn of the loop. *)
Lemma parse_blocks_nil (acc : list connector) : parse_blocks [] acc = acc.
Proof. reflexivity. Qed.


Lemma parse_blocks_row (line : string) (rest : list string)
      (acc : list connector) (m : list string) :
  is_empty (strip line) = false ->
  re_match row_re line = Some m ->
  parse_blocks (line :: rest) acc
  = parse_blocks (snd (block_modes rest))
      (acc ++ [Connector (int_digits (group 1 m)) (group 4 m) (group 3 m)
                         (fst (block_modes rest))]).
Proof.
  intros Hb Hm. unfold parse_blocks at 1. simpl. rewrite Hb, Hm.
  pose proof (block_modes_length rest) as Hl.
  destruct (block_modes rest) as [modes out']. simpl in *.
  by apply parse_blocks_fuel_enough.
Qed.

(** What [modetest_list_connectors] does in each kind of world. *)
Lemma modetest_missing (w : world) :
  which w "modetest" = None ->
  modetest_list_connectors w = Prog [] (Returned None).
Proof. intros H. unfold modetest_list_connectors. by rewrite H. Qed.

Lemma modetest_nonzero (w : world) (modetest : string) (rc : Z) (out : string) :
  which w "modetest" = Some modetest ->
  run w [modetest; "-c"] = Completed rc out ->
  rc <> 0 ->
  modetest_list_connectors w = Prog [EvRun [modetest; "-c"]] (Returned None).
Proof.
  intros Hw Hr Hrc. unfold modetest_list_connectors, subprocess_run.
  rewrite Hw, Hr. apply Z.eqb_neq in Hrc. rewrite Hrc. reflexivity.
Qed.

Lemma modetest_completed (w : world) (modetest : string) (out : string) :
  which w "modetest" = Some modetest ->
  run w [modetest; "-c"] = Completed 0 out ->
  modetest_list_connectors w
  = Prog [EvRun [modetest; "-c"]] (Returned (parse_report (splitlines out))).
Proof.
  intros Hw Hr. unfold modetest_list_connectors, subprocess_run.
  rewrite Hw, Hr. reflexivity.
Qed.

Lemma modetest_cannot_run (w : world) (modetest : string) (msg : string) :
  which w "modetest" = Some modetest ->
  run w [modetest; "-c"] = CannotRun msg ->
  modetest_list_connectors w = Prog [EvRun [modetest; "-c"]] (Raised (OSError msg)).
Proof.
  intros Hw Hr. unfold modetest_list_connectors, subprocess_run.
  rewrite Hw, Hr. reflexivity.
Qed.

Example sample_report_tabs_parse :
  parse_report (splitlines sample_report_tabs) = Some [sample_connector].
Proof. vm_compute. reflexivity. Qed.

(** C6. A report with the header line "Connectors:", then the row
    "29 10 connected HDMI-A", then a "modes:" block holding "1920x1080"
    parses to exactly one connector: id 29, status connected, type
    HDMI-A, modes ["1920x1080"]. Lines before the header and lines
    between the row and its "modes:" line do not change that. *)
Theorem sample_report_parses :
  (forall (w : world) (modetest : string),
      which w "modetest" = Some modetest ->
      run w [modetest; "-c"] = Completed 0 sample_report ->
      result (modetest_list_connectors w) = Returned (Some [sample_connector]))
  /\ (forall pre mid : list string,
         Forall (fun l => contains "Connectors:" l = false) pre ->
         Forall (fun l => contains "modes:" l = false) mid ->
         parse_report (pre ++ ["Connectors:"; sample_row] ++ mid
                           ++ ["modes:"; "1920x1080"])
         = Some [sample_connector]).
Proof.
  split.
  - intros w modetest Hw Hr.
    rewrite (modetest_completed w modetest sample_report Hw Hr). simpl.
    f_equal.
  - intros pre mid Hpre Hmid. unfold parse_report.
    rewrite seek_skip by exact Hpre. simpl seek. cbv beta iota.
    assert (Hid : startswith "id" (strip sample_row) = false) by reflexivity.
    rewrite Hid.
    rewrite (parse_blocks_row sample_row _ []
               ["29"; "10"; "connected"; "HDMI-A"]) by reflexivity.
    unfold block_modes. rewrite seek_skip by exact Hmid. reflexivity.
Qed.

Lemma sample_report_parses_witness :
  result (modetest_list_connectors sample_world) = Returned (Some [sample_connector])
  /\ parse_report (["Encoders:"] ++ ["Connectors:"; sample_row] ++ ["  props:"]
                       ++ ["modes:"; "1920x1080"])
     = Some [sample_connector].
Proof.
  split.
  - apply (proj1 sample_report_parses sample_world "/usr/bin/modetest");
      reflexivity.
  - apply (proj2 sample_report_parses ["Encoders:"] ["  props:"]);
      repeat constructor.
Defined.



End ModetestReport.

(** ** One launch attempt *)

Section Attempt.
Import Launcher.

Variables (w : world) (n : nat) (video_path : string)
          (backend_env : gmap string string) (timeout_probe : Z).

Lemma try_play_no_player (detach : bool) :
  find_ffplay w = None ->
  try_play_ffplay w n video_path backend_env detach timeout_probe
  = Prog [] (Raised (RuntimeError "ffplay not found. Install ffmpeg (ffplay).")).
Proof. intros H. unfold try_play_ffplay. by rewrite H. Qed.

Lemma try_play_popen_raises (detach : bool) (ffplay : string) (e : exn) :
  find_ffplay w = Some ffplay ->
  popen w n = PopenRaises e ->
  try_play_ffplay w n video_path backend_env detach timeout_probe
  = Prog (start_events w n ffplay video_path backend_env detach) (Raised e).
Proof. intros H1 H2. unfold try_play_ffplay. rewrite H1. simpl. by rewrite H2. Qed.

Lemma try_play_exits_early (detach : bool) (ffplay : string) (pid code : Z) :
  find_ffplay w = Some ffplay ->
  popen w n = PopenOk pid (ExitsEarly code) ->
  try_play_ffplay w n video_path backend_env detach timeout_probe
  = Prog (start_events w n ffplay video_path backend_env detach
            ++ [EvSleep (1000 * timeout_probe); EvPoll pid])
         (Returned code).
Proof. intros H1 H2. unfold try_play_ffplay. rewrite H1. simpl. by rewrite H2. Qed.

Lemma try_play_detached (ffplay : string) (pid : Z) (final : option Z) :
  find_ffplay w = Some ffplay ->
  popen w n = PopenOk pid (Runs final) ->
  try_play_ffplay w n video_path backend_env true timeout_probe
  = Prog (start_events w n ffplay video_path backend_env true
            ++ [EvSleep (1000 * timeout_probe); EvPoll pid;
                EvPrint (MsgDetached pid)])
         (Returned 0).
Proof. intros H1 H2. unfold try_play_ffplay. rewrite H1. simpl. by rewrite H2. Qed.

Lemma try_play_waits (ffplay : string) (pid code : Z) :
  find_ffplay w = Some ffplay ->
  popen w n = PopenOk pid (Runs (Some code)) ->
  try_play_ffplay w n video_path backend_env false timeout_probe
  = Prog (start_events w n ffplay video_path backend_env false
            ++ [EvSleep (1000 * timeout_probe); EvPoll pid; EvWait pid])
         (Returned code).
Proof. intros H1 H2. unfold try_play_ffplay. rewrite H1. simpl. by rewrite H2. Qed.

Lemma try_play_blocks (ffplay : string) (pid : Z) :
  find_ffplay w = Some ffplay ->
  popen w n = PopenOk pid (Runs None) ->
  try_play_ffplay w n video_path backend_env false timeout_probe
  = Prog (start_events w n ffplay video_path backend_env false
            ++ [EvSleep (1000 * timeout_probe); EvPoll pid; EvWait pid])
         Blocked.
Proof. intros H1 H2. unfold try_play_ffplay. rewrite H1. simpl. by rewrite H2. Qed.

End Attempt.

(** ** After the probe: waiting or detaching *)

Section AfterProbe.
Import Launcher.

(** One turn of the loop over the candidates, by the way the attempt ends. *)
Lemma try_backends_step (w : world) (video : string) (detach : bool)
      (n : nat) (b : string) (rest : list string) (last_err : option exn) :
  let p := try_play_ffplay w n video (backend_overlay w b) detach 2 in
  let next := try_backends w video detach (S n) rest in
  let head := EvOverlay n b (backend_overlay w b) :: trace p in
  try_backends w video detach n (b :: rest) last_err
  = match result p with
    | Returned rc =>
        if rc =? 0 then Prog head (Returned tt)
        else Prog (head ++ EvPrint (MsgBackendFailed b rc) :: trace (next last_err))
                  (result (next last_err))
    | Raised e =>
        Prog (head ++ EvPrint (MsgBackendFailed b 1) :: trace (next (Some e)))
             (result (next (Some e)))
    | Exited c => Prog head (Exited c)
    | Blocked => Prog head Blocked
    end.
Proof.
  intros p next head. subst head next. simpl.
  unfold try_except, mbind, prog_bind. fold p.
  destruct (result p) as [rc|e|c|] eqn:Hp; simpl; try rewrite Hp; simpl.
  - rewrite app_nil_r. destruct (rc =? 0); simpl; [by rewrite app_nil_r|done].
  - by rewrite app_nil_r.
  - done.
  - done.
Qed.

(** C4. Without [detach], when the child is still running at the poll
    that ends the probe, the attempt calls [proc.wait()] as its last
    action and its result is the exit code of the child; while the child
    does not terminate the attempt does not return. *)
Theorem wait_returns_exit_code (w : world) (n : nat) (video_path : string)
        (backend_env : gmap string string) (timeout_probe : Z)
        (ffplay : string) (pid : Z) (final : option Z) :
  find_ffplay w = Some ffplay ->
  popen w n = PopenOk pid (Runs final) ->
  trace (try_play_ffplay w n video_path backend_env false timeout_probe)
  = (start_events w n ffplay video_path backend_env false
       ++ [EvSleep (1000 * timeout_probe); EvPoll pid; EvWait pid])%list
  /\ result (try_play_ffplay w n video_path backend_env false timeout_probe)
     = match final with
       | Some C => Returned C
       | None => Blocked
       end.
Proof.
  intros Hf Hp. destruct final as [C|].
  - by rewrite (try_play_waits _ _ _ _ _ ffplay pid C).
  - by rewrite (try_play_blocks _ _ _ _ _ ffplay pid).
Qed.

Lemma wait_returns_exit_code_witness :
  result (try_play_ffplay (player_world (Runs (Some 7))) 0 "movie.mp4" ∅ false 2)
  = Returned 7.
Proof.
  apply (wait_returns_exit_code (player_world (Runs (Some 7))) 0 "movie.mp4" ∅ 2
           "/usr/bin/ffplay" 100 (Some 7)); reflexivity.
Defined.

(** C5. With [detach], when the child is still running at the poll that
    ends the probe, the attempt returns 0 right after the poll, without
    calling [proc.wait()]; the whole attempt is the same whenever and
    however the child ends later, or if it never does; and the loop over
    the candidates returns there. *)
Theorem detached_returns_at_once (w : world) (n : nat) (video_path : string)
        (backend_env : gmap string string) (timeout_probe : Z)
        (ffplay : string) (pid : Z) (final : option Z) :
  find_ffplay w = Some ffplay ->
  popen w n = PopenOk pid (Runs final) ->
  result (try_play_ffplay w n video_path backend_env true timeout_probe)
  = Returned 0
  /\ trace (try_play_ffplay w n video_path backend_env true timeout_probe)
     = (start_events w n ffplay video_path backend_env true
          ++ [EvSleep (1000 * timeout_probe); EvPoll pid;
              EvPrint (MsgDetached pid)])%list
  /\ List.existsb is_wait
       (trace (try_play_ffplay w n video_path backend_env true timeout_probe))
     = false
  /\ (forall (w' : world) (final' : option Z),
         find_ffplay w' = find_ffplay w ->
         environ w' = environ w ->
         popen w' n = PopenOk pid (Runs final') ->
         try_play_ffplay w' n video_path backend_env true timeout_probe
         = try_play_ffplay w n video_path backend_env true timeout_probe)
  /\ (forall (b : string) (rest : list string) (last_err : option exn),
         try_backends w video_path true n (b :: rest) last_err
         = Prog (EvOverlay n b (backend_overlay w b)
                   :: start_events w n ffplay video_path (backend_overlay w b) true
                   ++ [EvSleep 2000; EvPoll pid; EvPrint (MsgDetached pid)])
                (Returned tt)).
Proof.
  intros Hf Hp.
  rewrite (try_play_detached _ _ _ _ _ ffplay pid final Hf Hp).
  split; [done|]. split; [done|]. split; [done|]. split.
  - intros w' final' Hf' He' Hp'. rewrite Hf in Hf'.
    rewrite (try_play_detached _ _ _ _ _ ffplay pid final' Hf' Hp').
    unfold start_events, player_env. by rewrite He'.
  - intros b rest last_err. rewrite try_backends_step. cbv zeta.
    by rewrite (try_play_detached _ _ _ _ _ ffplay pid final Hf Hp).
Qed.

Lemma detached_returns_at_once_witness :
  result (try_play_ffplay (player_world (Runs (Some 7))) 0 "movie.mp4" ∅ true 2)
  = Returned 0
  /\ try_play_ffplay (player_world (Runs None)) 0 "movie.mp4" ∅ true 2
     = try_play_ffplay (player_world (Runs (Some 7))) 0 "movie.mp4" ∅ true 2.
Proof.
  destruct (detached_returns_at_once (player_world (Runs (Some 7))) 0 "movie.mp4"
              ∅ 2 "/usr/bin/ffplay" 100 (Some 7) eq_refl eq_refl)
    as (Hr & _ & _ & Hind & _).
  split; [exact Hr|].
  apply (Hind (player_world (Runs None)) None); reflexivity.
Defined.

End AfterProbe.

(** ** The loop over the candidates *)

Section Fallback.
Import Launcher.

Variables (w : world) (video : string) (detach : bool).

Lemma try_play_attempted (n : nat) (env : gmap string string) (tp : Z) :
  Forall (fun m => m = n) (attempted (trace (try_play_ffplay w n video env detach tp))).
Proof.
  unfold try_play_ffplay.
  destruct (find_ffplay w) as [ffplay|]; simpl; [|constructor].
  destruct (popen w n) as [e|pid [code|final]]; simpl.
  - repeat constructor.
  - repeat constructor.
  - destruct detach; simpl; [repeat constructor|].
    destruct final; simpl; repeat constructor.
Qed.

Lemma attempted_app (t1 t2 : list event) :
  attempted (t1 ++ t2) = (attempted t1 ++ attempted t2)%list.
Proof. apply omap_app. Qed.

End Fallback.

(** ** Where the loop stops *)

Section Stopping.
Import Launcher.

Variables (w : world) (video : string) (detach : bool).

Lemma try_play_running_result (k : nat) (final : option Z)
      (env : gmap string string) (tp : Z) :
  running_at w k final ->
  detach = true \/ (forall c, final = Some c -> c = 0) ->
  result (try_play_ffplay w k video env detach tp) = Returned 0
  \/ result (try_play_ffplay w k video env detach tp) = Blocked.
Proof.
  intros [Hf [pid Hp]] Hok.
  destruct (find_ffplay w) as [ffplay|] eqn:Hff; [|done].
  destruct detach eqn:Hd.
  - left. by rewrite (try_play_detached _ _ _ _ _ ffplay pid final).
  - destruct Hok as [|Hok]; [done|].
    destruct final as [c|].
    + left. rewrite (try_play_waits _ _ _ _ _ ffplay pid c) by done.
      simpl. by rewrite (Hok c).
    + right. by rewrite (try_play_blocks _ _ _ _ _ ffplay pid).
Qed.

Lemma try_backends_none_after (k : nat) (final : option Z) :
  running_at w k final ->
  detach = true \/ (forall c, final = Some c -> c = 0) ->
  forall (cands : list string) (n : nat) (last_err : option exn),
    (n <= k)%nat ->
    none_after k (trace (try_backends w video detach n cands last_err)).
Proof.
  intros Hrun Hok. unfold none_after.
  induction cands as [|b rest IH]; intros n last_err Hn.
  - simpl. destruct last_err; constructor.
  - rewrite try_backends_step. cbv zeta.
    pose proof (try_play_attempted w video detach n (backend_overlay w b) 2) as Hatt.
    assert (Hhead : Forall (fun m => (m <= k)%nat)
              (attempted (EvOverlay n b (backend_overlay w b)
                 :: trace (try_play_ffplay w n video (backend_overlay w b) detach 2)))).
    { change (Forall (fun m => (m <= k)%nat)
                (n :: attempted (trace (try_play_ffplay w n video
                                          (backend_overlay w b) detach 2)))).
      constructor; [done|].
      eapply List.Forall_impl; [|exact Hatt]. simpl. intros m ->. done. }
    assert (Hnext : forall le, (n < k)%nat ->
              Forall (fun m => (m <= k)%nat)
                (attempted (trace (try_backends w video detach (S n) rest le)))).
    { intros le Hlt. apply IH. lia. }
    assert (Hat_k : n = k ->
              result (try_play_ffplay w n video (backend_overlay w b) detach 2)
              = Returned 0
              \/ result (try_play_ffplay w n video (backend_overlay w b) detach 2)
                 = Blocked).
    { intros ->. by apply (try_play_running_result k final). }
    destruct (result (try_play_ffplay w n video (backend_overlay w b) detach 2))
      as [rc|e|c|] eqn:Hres.
    + destruct (rc =? 0) eqn:Hrc; cbn [trace]; [exact Hhead|].
      destruct (decide (n = k)) as [Heq|Hne].
      { destruct (Hat_k Heq) as [[= ->]|]; done. }
      rewrite attempted_app. apply Forall_app. split; [exact Hhead|].
      apply (Hnext last_err). lia.
    + destruct (decide (n = k)) as [Heq|Hne].
      { destruct (Hat_k Heq); done. }
      cbn [trace]. rewrite attempted_app.
      apply Forall_app. split; [exact Hhead|].
      apply (Hnext (Some e)). lia.
    + exact Hhead.
    + exact Hhead.
Qed.

(** C1, as amended. When the child of candidate [k] is still running at
    the poll that ends its probe, no overlay is built and no child is
    started for a candidate after [k], with [detach], or without it
    when that child ends with exit code 0 or never ends. This holds in
    particular when [k] is the first such candidate. *)
Theorem launch_stops_at_running (cands : list string) (k : nat)
        (final : option Z) :
  running_at w k final ->
  detach = true \/ (forall c, final = Some c -> c = 0) ->
  none_after k (trace (launch w video cands detach)).
Proof.
  intros Hrun Hok. unfold launch.
  apply (try_backends_none_after k final Hrun Hok). lia.
Qed.

End Stopping.

Section StoppingInstances.
Import Launcher.

Lemma player_world_first_running (c : option Z) :
  first_running (player_world (Runs c)) 0.
Proof.
  split; [intros j final Hj; lia|].
  exists c. split; [done|]. by exists 100.
Qed.

Lemma launch_stops_at_running_witness :
  none_after 0 (trace (launch (player_world (Runs (Some 0))) "movie.mp4"
                              ["kmsdrm"; "fbcon"; "default"] false)).
Proof.
  apply (launch_stops_at_running (player_world (Runs (Some 0))) "movie.mp4" false
           ["kmsdrm"; "fbcon"; "default"] 0 (Some 0)).
  - split; [done|]. by exists 100.
  - right. intros c [= <-]. reflexivity.
Defined.

(** Without [detach], the first child runs past the probe and then ends
    with exit code 1: the loop goes on to build the overlay of "fbcon"
    and to start a second child. *)
Lemma stops_at_first_running_counterexample :
  ~ stops_at_first_running (player_world (Runs (Some 1))) "movie.mp4"
      ["kmsdrm"; "fbcon"] false 0.
Proof.
  intros H.
  specialize (H ltac:(simpl; lia) (player_world_first_running (Some 1))).
  unfold none_after in H.
  assert (E : attempted (trace (launch (player_world (Runs (Some 1))) "movie.mp4"
                                       ["kmsdrm"; "fbcon"] false))
              = [0; 0; 1; 1]%nat) by (vm_compute; reflexivity).
  rewrite E in H. apply Forall_cons_1 in H as [_ H].
  apply Forall_cons_1 in H as [_ H]. apply Forall_cons_1 in H as [H _]. lia.
Qed.

End StoppingInstances.

(** ** When the player is missing *)

Section NoPlayer.
Import Launcher.

Variables (w : world) (video : string) (detach : bool).
Hypothesis no_player : find_ffplay w = None.

Lemma try_backends_no_player (cands : list string) :
  forall (n : nat) (last_err : option exn),
    let p := try_backends w video detach n cands last_err in
    result p = Exited 3
    /\ popens (trace p) = []
    /\ overlays (trace p) = cands
    /\ failures (trace p) = List.map (fun b => (b, 1)) cands
    /\ (cands <> [] \/ last_err = Some not_found ->
        In (EvPrint (MsgLastError not_found)) (trace p)).
Proof.
  induction cands as [|b rest IH]; intros n last_err; cbv zeta.
  - destruct last_err as [e|]; simpl; repeat split; try done.
    + intros [|[= ->]]; [done|]. right. by left.
    + intros [|]; done.
  - rewrite try_backends_step, (try_play_no_player _ _ _ _ _ _ no_player).
    cbv zeta. cbn [result trace app].
    destruct (IH (S n) (Some not_found)) as (Hr & Hp & Ho & Hf & Hl).
    repeat split.
    + exact Hr.
    + exact Hp.
    + cbn. f_equal. exact Ho.
    + cbn. f_equal. exact Hf.
    + intros _. right. right. apply Hl. by right.
Qed.

End NoPlayer.

Section NoPlayerClaims.
Import Launcher.

(** C2, as amended. When [ffplay] is not on the search path no child
    process is started for any candidate. The launcher still goes through
    every candidate in order: it builds the overlay of each, records the
    attempt as failed with code 1, and after the last one it ends with
    exit status 3, reporting the missing player as its last error. *)
Theorem launch_without_player (w : world) (video : string)
        (cands : list string) (detach : bool) :
  find_ffplay w = None ->
  popens (trace (launch w video cands detach)) = []
  /\ overlays (trace (launch w video cands detach)) = cands
  /\ failures (trace (launch w video cands detach))
     = List.map (fun b => (b, 1)) cands
  /\ result (launch w video cands detach) = Exited 3
  /\ (cands <> [] ->
      In (EvPrint (MsgLastError not_found)) (trace (launch w video cands detach))).
Proof.
  intros Hno.
  destruct (try_backends_no_player w video detach Hno cands 0%nat None)
    as (Hr & Hp & Ho & Hf & Hl).
  unfold launch. repeat split; try assumption.
  intros Hne. apply Hl. by left.
Qed.

Lemma launch_without_player_witness :
  popens (trace (launch bare_world "movie.mp4" ["kmsdrm"; "fbcon"; "default"] true))
  = []
  /\ result (launch bare_world "movie.mp4" ["kmsdrm"; "fbcon"; "default"] true)
     = Exited 3.
Proof.
  destruct (launch_without_player bare_world "movie.mp4"
              ["kmsdrm"; "fbcon"; "default"] true eq_refl)
    as (Hp & _ & _ & Hr & _).
  split; [exact Hp | exact Hr].
Defined.

Lemma fails_before_any_candidate_counterexample :
  ~ fails_before_any_candidate bare_world "movie.mp4"
      ["kmsdrm"; "fbcon"; "default"] false.
Proof.
  intros H. destruct (H eq_refl) as [Ho _].
  assert (E : overlays (trace (launch bare_world "movie.mp4"
                                      ["kmsdrm"; "fbcon"; "default"] false))
              = ["kmsdrm"; "fbcon"; "default"]) by (vm_compute; reflexivity).
  rewrite E in Ho. discriminate Ho.
Qed.

End NoPlayerClaims.

(** ** A child that has exited at the poll *)

Section EarlyExit.
Import Launcher.

(** C3, as amended. When the child of a candidate has already exited
    with a nonzero code at the poll that ends the probe, the attempt
    counts as failed: the failure is reported with that exit code and the
    launcher goes on with the candidates that follow. *)
Theorem early_exit_moves_on (w : world) (video : string) (detach : bool)
        (n : nat) (b : string) (rest : list string) (last_err : option exn)
        (ffplay : string) (pid code : Z) :
  find_ffplay w = Some ffplay ->
  popen w n = PopenOk pid (ExitsEarly code) ->
  code <> 0 ->
  try_backends w video detach n (b :: rest) last_err
  = Prog ((EvOverlay n b (backend_overlay w b)
             :: start_events w n ffplay video (backend_overlay w b) detach
             ++ [EvSleep 2000; EvPoll pid])
          ++ EvPrint (MsgBackendFailed b code)
             :: trace (try_backends w video detach (S n) rest last_err))
         (result (try_backends w video detach (S n) rest last_err)).
Proof.
  intros Hf Hp Hc. rewrite try_backends_step. cbv zeta.
  rewrite (try_play_exits_early _ _ _ _ _ _ ffplay pid code Hf Hp).
  cbn [result trace]. apply Z.eqb_neq in Hc. by rewrite Hc.
Qed.

Lemma early_exit_moves_on_witness :
  failures (trace (launch (player_world (ExitsEarly 1)) "movie.mp4"
                          ["kmsdrm"; "fbcon"] false))
  = [("kmsdrm", 1); ("fbcon", 1)].
Proof.
  unfold launch.
  rewrite (early_exit_moves_on (player_world (ExitsEarly 1)) "movie.mp4" false
             0 "kmsdrm" ["fbcon"] None "/usr/bin/ffplay" 100 1
             eq_refl eq_refl ltac:(lia)).
  vm_compute. reflexivity.
Defined.

(** Without [detach], a child that outlives the probe and then ends with
    a nonzero code is reported as failed like an early exit. *)
Lemma late_exit_moves_on (w : world) (video : string)
      (n : nat) (b : string) (rest : list string) (last_err : option exn)
      (ffplay : string) (pid code : Z) :
  find_ffplay w = Some ffplay ->
  popen w n = PopenOk pid (Runs (Some code)) ->
  code <> 0 ->
  try_backends w video false n (b :: rest) last_err
  = Prog ((EvOverlay n b (backend_overlay w b)
             :: start_events w n ffplay video (backend_overlay w b) false
             ++ [EvSleep 2000; EvPoll pid; EvWait pid])
          ++ EvPrint (MsgBackendFailed b code)
             :: trace (try_backends w video false (S n) rest last_err))
         (result (try_backends w video false (S n) rest last_err)).
Proof.
  intros Hf Hp Hc. rewrite try_backends_step. cbv zeta.
  rewrite (try_play_waits _ _ _ _ _ ffplay pid code Hf Hp).
  cbn [result trace]. apply Z.eqb_neq in Hc. by rewrite Hc.
Qed.

(** An exit with code 0 inside the probe window passes the [rc == 0]
    test of the loop, which returns at once. *)
Lemma early_zero_returns (w : world) (video : string) (detach : bool)
      (n : nat) (b : string) (rest : list string) (last_err : option exn)
      (ffplay : string) (pid : Z) :
  find_ffplay w = Some ffplay ->
  popen w n = PopenOk pid (ExitsEarly 0) ->
  try_backends w video detach n (b :: rest) last_err
  = Prog (EvOverlay n b (backend_overlay w b)
            :: start_events w n ffplay video (backend_overlay w b) detach
            ++ [EvSleep 2000; EvPoll pid])
         (Returned tt).
Proof.
  intros Hf Hp. rewrite try_backends_step. cbv zeta.
  by rewrite (try_play_exits_early _ _ _ _ _ _ ffplay pid 0 Hf Hp).
Qed.

Lemma early_exit_is_failure_counterexample :
  ~ early_exit_is_failure (player_world (ExitsEarly 0)) "movie.mp4" false
      0 "kmsdrm" ["fbcon"] 0.
Proof.
  intros H. destruct H as [pre H].
  { exists "/usr/bin/ffplay", 100. by split. }
  assert (E : failures (trace (try_backends (player_world (ExitsEarly 0))
                                 "movie.mp4" false 0 ["kmsdrm"; "fbcon"] None))
              = []) by (vm_compute; reflexivity).
  rewrite H in E. cbn [trace] in E. unfold failures in E.
  rewrite omap_app in E. apply app_eq_nil in E as [_ E]. discriminate E.
Qed.

End EarlyExit.

(** ** The candidates and their overlays *)

Section Candidates.
Import Launcher.

Variables (w : world) (video : string) (detach : bool).

(** Every overlay the loop builds, and every environment it starts a
    child in, is that of the candidate at that place of the list. *)
Lemma try_backends_overlays (cands : list string) :
  forall (n : nat) (last_err : option exn) (e : event),
    In e (trace (try_backends w video detach n cands last_err)) ->
    match e with
    | EvOverlay m b env =>
        (n <= m)%nat /\ cands !! (m - n)%nat = Some b /\ env = backend_overlay w b
    | EvPopen m _ env setsid =>
        (n <= m)%nat /\ setsid = detach
        /\ exists b, cands !! (m - n)%nat = Some b
                     /\ env = player_env w (backend_overlay w b)
    | _ => True
    end.
Proof.
  induction cands as [|b rest IH]; intros n last_err e.
  - simpl. destruct last_err; simpl; intros H; decompose [or] H; by subst.
  - rewrite try_backends_step. cbv zeta.
    assert (Hattempt : In e (EvOverlay n b (backend_overlay w b)
                :: trace (try_play_ffplay w n video (backend_overlay w b) detach 2)) ->
              match e with
              | EvOverlay m b' env =>
                  (n <= m)%nat /\ (b :: rest) !! (m - n)%nat = Some b'
                  /\ env = backend_overlay w b'
              | EvPopen m _ env setsid =>
                  (n <= m)%nat /\ setsid = detach
                  /\ exists b', (b :: rest) !! (m - n)%nat = Some b'
                                /\ env = player_env w (backend_overlay w b')
              | _ => True
              end).
    { intros [<-|He].
      - rewrite Nat.sub_diag. done.
      - revert He. unfold try_play_ffplay.
        destruct (find_ffplay w) as [ffplay|]; simpl; [|done].
        assert (Hpopen : (n <= n)%nat /\ detach = detach
                  /\ exists b', (b :: rest) !! (n - n)%nat = Some b'
                       /\ player_env w (backend_overlay w b)
                          = player_env w (backend_overlay w b')).
        { rewrite Nat.sub_diag. split; [done|]. split; [done|]. by exists b. }
        destruct (popen w n) as [ex|pid [code|final]]; simpl.
        + intros H; decompose [or] H; subst; done.
        + intros H; decompose [or] H; subst; done.
        + destruct detach; simpl; [intros H; decompose [or] H; subst; done|].
          destruct final; simpl; intros H; decompose [or] H; subst; done. }
    assert (Hnext : forall le,
              In e (trace (try_backends w video detach (S n) rest le)) ->
              match e with
              | EvOverlay m b' env =>
                  (n <= m)%nat /\ (b :: rest) !! (m - n)%nat = Some b'
                  /\ env = backend_overlay w b'
              | EvPopen m _ env setsid =>
                  (n <= m)%nat /\ setsid = detach
                  /\ exists b', (b :: rest) !! (m - n)%nat = Some b'
                                /\ env = player_env w (backend_overlay w b')
              | _ => True
              end).
    { intros le He. specialize (IH (S n) le e He).
      destruct e as [| |m b' env|m cmd env setsid| | |]; try done.
      - destruct IH as (Hm & Hl & He'). split; [lia|]. split; [|done].
        replace (m - n)%nat with (S (m - S n)) by lia. exact Hl.
      - destruct IH as (Hm & Hs & b' & Hl & He'). split; [lia|]. split; [done|].
        exists b'. split; [|done].
        replace (m - n)%nat with (S (m - S n)) by lia. exact Hl. }
    destruct (result (try_play_ffplay w n video (backend_overlay w b) detach 2))
      as [rc|ex|c|].
    + destruct (rc =? 0); cbn [trace]; [exact Hattempt|].
      intros He. apply in_app_or in He as [He|[<-|He]];
        [by apply Hattempt|done|by apply (Hnext last_err)].
    + cbn [trace]. intros He. apply in_app_or in He as [He|[<-|He]];
        [by apply Hattempt|done|by apply (Hnext (Some ex))].
    + exact Hattempt.
    + exact Hattempt.
Qed.

End Candidates.

Section CandidateTable.
Import Launcher.




End CandidateTable.

(** ** A video that does not exist *)

Section MissingVideo.
Import Sysfs Modetest Launcher.

Lemma popens_app (t1 t2 : list event) :
  popens (t1 ++ t2) = (popens t1 ++ popens t2)%list.
Proof. apply omap_app. Qed.

Lemma trace_bind {A B : Type} (m : prog A) (k : A -> prog B) :
  trace (m ≫= k)
  = (trace m ++ match result m with
                | Returned a => trace (k a)
                | _ => []
                end)%list.
Proof.
  unfold mbind, prog_bind.
  destruct (result m); simpl; by rewrite ?app_nil_r.
Qed.

Lemma for_each_print_popens {A : Type} (xs : list A) (f : A -> message) :
  popens (trace (for_each xs (fun x => print (f x)))) = [].
Proof. induction xs as [|x xs IH]; simpl; [done|]. exact IH. Qed.

Lemma list_sys_popens (w : world) :
  popens (trace (list_sys_drm_connectors w)) = [].
Proof.
  unfold list_sys_drm_connectors.
  destruct (isdir w "/sys/class/drm"); simpl; [|done].
  by destruct (listdir w "/sys/class/drm").
Qed.

Lemma print_sys_popens (conn : list sys_connector) :
  popens (trace (print_sys_connectors conn)) = [].
Proof.
  destruct conn as [|c conn]; [done|].
  unfold print_sys_connectors. rewrite trace_bind, popens_app. simpl.
  apply (for_each_print_popens conn
           (fun c => MsgSysConnector (name c) (status c) (first_mode c))).
Qed.

Lemma modetest_list_popens (w : world) :
  popens (trace (modetest_list_connectors w)) = [].
Proof.
  destruct (which w "modetest") as [modetest|] eqn:Hw.
  - destruct (run w [modetest; "-c"]) as [rc out|msg] eqn:Hr.
    + destruct (Z.eq_dec rc 0) as [->|Hrc].
      * by rewrite (modetest_completed w modetest out).
      * by rewrite (modetest_nonzero w modetest rc out).
    + by rewrite (modetest_cannot_run w modetest msg).
  - by rewrite modetest_missing.
Qed.

(** The listing branch of [main] starts no player. *)
Lemma list_branch_popens (w : world) (a : args) :
  list_connectors a = true -> popens (trace (main w a)) = [].
Proof.
  intros Hl. unfold main. rewrite Hl.
  rewrite trace_bind, popens_app, list_sys_popens. simpl app.
  destruct (result (list_sys_drm_connectors w)) as [syscon| | |]; try done.
  rewrite trace_bind, popens_app, print_sys_popens. simpl app.
  destruct (result (print_sys_connectors syscon)); try done.
  rewrite trace_bind, popens_app, modetest_list_popens. simpl app.
  destruct (result (modetest_list_connectors w)) as [[mt|]| | |]; try done.
  rewrite trace_bind, popens_app. simpl.
  apply (for_each_print_popens mt
           (fun c => MsgModetestConnector (conn_id c) (conn_type c) (conn_status c)
                                          (firstn 3 (conn_modes c)))).
Qed.

(** C7, as amended. When the video argument names no existing file the
    program never starts the player; and when moreover
    [--list-connectors] is not given and the argument is not the empty
    string, it prints that the video was not found and ends with exit
    status 2. *)
Theorem missing_video_exits_2 (w : world) (a : args) (v : string) :
  video a = Some v ->
  path_exists w v = false ->
  popens (trace (main w a)) = []
  /\ (list_connectors a = false -> v <> "" ->
      main w a = Prog [EvPrint (MsgVideoNotFound v)] (Exited 2)
      /\ exit_status (result (main w a)) = Some 2).
Proof.
  intros Hv Hex. split.
  - destruct (list_connectors a) eqn:Hl; [by apply list_branch_popens|].
    unfold main. rewrite Hl, Hv. destruct v; [done|]. by rewrite Hex.
  - intros Hl Hne. unfold main. rewrite Hl, Hv.
    destruct v; [done|]. by rewrite Hex.
Qed.

Lemma missing_video_exits_2_witness :
  exit_status (result (main bare_world
                         (Args (Some "movie.mp4") false (Some 29) true Auto true)))
  = Some 2.
Proof.
  apply (missing_video_exits_2 bare_world
           (Args (Some "movie.mp4") false (Some 29) true Auto true) "movie.mp4");
    try reflexivity. discriminate.
Defined.

(** With [--list-connectors] the program lists and returns before it
    looks at the video argument: the exit status is 0. *)
Lemma missing_video_always_exits_2_counterexample :
  ~ missing_video_always_exits_2 bare_world
      (Args (Some "movie.mp4") true None false Auto false).
Proof.
  intros H. destruct (H "movie.mp4" eq_refl eq_refl) as [Hs _].
  vm_compute in Hs. discriminate Hs.
Qed.

End MissingVideo.

(** * Further properties of the code *)

(** ** What a match of a pattern holds *)

Section RegexSound.

Lemma backtrack_some {R : Type} (try : nat -> option R) (lo k : nat) (r : R) :
  backtrack try lo k = Some r ->
  exists j, (lo <= j <= k)%nat /\ try j = Some r.
Proof.
  induction k as [|k IH]; simpl.
  - destruct (0 <? lo)%nat eqn:Hlo; [done|]. apply Nat.ltb_ge in Hlo.
    destruct (try 0%nat) eqn:Ht; [|done]. intros [= <-]. exists 0%nat. split; [lia|done].
  - destruct (S k <? lo)%nat eqn:Hlo; [done|]. apply Nat.ltb_ge in Hlo.
    destruct (try (S k)) eqn:Ht.
    + intros [= <-]. exists (S k). split; [lia|done].
    + intros H. destruct (IH H) as (j & Hj & Hr). exists j. split; [lia|done].
Qed.

Lemma append_cons (c : ascii) (a b : string) : String c a ++ b = String c (a ++ b).
Proof. reflexivity. Qed.

Lemma str_take_drop (k : nat) (s : string) : str_take k s ++ str_drop k s = s.
Proof.
  revert s. induction k as [|k IH]; intros [|c s]; simpl; try done.
  by rewrite append_cons, IH.
Qed.

Lemma str_take_run (p : ascii -> bool) (k : nat) (s : string) :
  (k <= run_length p s)%nat ->
  all_chars p (str_take k s) = true /\ String.length (str_take k s) = k.
Proof.
  revert s. induction k as [|k IH]; intros s Hk.
  - by destruct s.
  - destruct s as [|c s]; simpl in Hk; [lia|].
    destruct (p c) eqn:Hc; [|lia]. simpl. rewrite Hc.
    destruct (IH s) as [Ha Hl]; [lia|]. by rewrite Ha, Hl.
Qed.

Lemma append_empty_r (s : string) : s ++ "" = s.
Proof. induction s as [|c s IH]; [done|]. by rewrite append_cons, IH. Qed.

Lemma append_assoc (a b c : string) : (a ++ b) ++ c = a ++ (b ++ c).
Proof. induction a as [|x a IH]; [done|]. by rewrite !append_cons, IH. Qed.

(** The pieces a match cuts the string into: one per atom, each made of
    characters of the atom's class, as many as its quantifier allows, and
    together a prefix of the string. *)
Lemma match_atoms_sound (ps : list atom) :
  forall (s : string) (pieces : list string),
    match_atoms ps s = Some pieces ->
    Forall2 piece_ok ps pieces
    /\ exists rest, fold_right String.append "" pieces ++ rest = s.
Proof.
  induction ps as [|a ps IH]; intros s pieces; simpl.
  - intros [= <-]. split; [constructor|]. by exists s.
  - intros H. apply backtrack_some in H as (j & [Hlo Hhi] & Hj).
    destruct (match_atoms ps (str_drop j s)) as [pieces'|] eqn:Hm; [|done].
    injection Hj as <-.
    destruct (IH _ _ Hm) as [Hall [rest Hrest]].
    assert (Hrun : (j <= run_length (a_class a) s)%nat).
    { unfold max_count in Hhi. destruct (a_quant a); lia. }
    destruct (str_take_run (a_class a) j s Hrun) as [Hc Hl].
    split.
    + constructor; [|exact Hall]. unfold piece_ok. rewrite Hc, Hl.
      split; [done|]. split; [done|].
      intros Hq. rewrite Hq in Hlo, Hhi. unfold min_count, max_count in *. lia.
    + exists rest. simpl. rewrite append_assoc, Hrest. apply str_take_drop.
Qed.

Lemma int_digits_nonneg (s : string) :
  all_chars isdecimal s = true -> 0 <= int_digits s.
Proof.
  unfold int_digits.
  assert (H : forall acc, 0 <= acc -> all_chars isdecimal s = true ->
              0 <= fold_left (fun acc c => 10 * acc + (Z.of_N (ord c) - 48))
                             (list_ascii_of_string s) acc).
  { induction s as [|c s IH]; intros acc Hacc; simpl; [done|].
    intros [Hc Hs]%andb_true_iff. apply IH; [|done].
    unfold isdecimal, between in Hc. apply andb_true_iff in Hc as [Hc _].
    apply N.leb_le in Hc. lia. }
  by apply H.
Qed.

Lemma nonempty_length (s : string) : (1 <= String.length s)%nat -> s <> "".
Proof. destruct s; simpl; [lia|done]. Qed.

(** The groups of a row: id and encoder are digits, the status is made of
    word characters, the type of characters that are not white space. *)
Lemma row_groups (line : string) (m : list string) :
  re_match row_re line = Some m ->
  (all_chars isdecimal (group 1 m) = true /\ group 1 m <> "")
  /\ (all_chars isword (group 3 m) = true /\ group 3 m <> "")
  /\ (all_chars nonspace (group 4 m) = true /\ group 4 m <> "").
Proof.
  unfold re_match.
  destruct (match_atoms (atoms row_re) line) as [pieces|] eqn:Hm; [|done].
  intros [= <-]. apply match_atoms_sound in Hm as [Hall _].
  simpl in Hall.
  repeat match goal with
         | H : Forall2 _ (_ :: _) _ |- _ =>
             apply Forall2_cons_inv_l in H as (? & ? & ? & H & ->)
         | H : Forall2 _ [] _ |- _ => apply Forall2_nil_inv_l in H as ->
         end.
  unfold group, group_text. simpl. rewrite !append_empty_r.
  repeat match goal with
         | H : piece_ok _ _ |- _ => destruct H as (? & ? & _); simpl in *
         end.
  auto using nonempty_length.
Qed.

Lemma single_char (x : ascii) (s : string) :
  String.length s = 1%nat -> all_chars (Ascii.eqb x) s = true ->
  s = String x EmptyString.
Proof.
  destruct s as [|c [|c' s]]; simpl; try done.
  intros _ H. rewrite andb_true_r in H. apply Ascii.eqb_eq in H. by subst.
Qed.

Lemma mode_group (s : string) (mm : list string) :
  re_match mode_re s = Some mm -> is_mode_name (group 1 mm).
Proof.
  unfold re_match.
  destruct (match_atoms (atoms mode_re) s) as [pieces|] eqn:Hm; [|done].
  intros [= <-]. apply match_atoms_sound in Hm as [Hall _].
  simpl in Hall.
  apply Forall2_cons_inv_l in Hall as (pa & k1 & (Ha & Hal & _) & Hall & ->).
  apply Forall2_cons_inv_l in Hall as (px & k2 & (Hx & _ & Hxl) & Hall & ->).
  apply Forall2_cons_inv_l in Hall as (pb & k3 & (Hb & Hbl & _) & Hall & ->).
  apply Forall2_nil_inv_l in Hall as ->.
  simpl in *. specialize (Hxl eq_refl).
  rewrite (single_char "x" px Hxl Hx).
  exists pa, pb. unfold group, group_text. simpl. rewrite append_empty_r.
  repeat split; auto using nonempty_length.
Qed.

End RegexSound.

(** ** The report parser beyond the sample *)

Section ReportParser.

Lemma seek_incl (marker : string) (out : list string) :
  incl (seek marker out) out.
Proof.
  induction out as [|l out IH]; simpl; [apply incl_refl|].
  destruct (contains marker l); [apply incl_refl|]. by apply incl_tl.
Qed.

Lemma seek_nil (marker : string) (out : list string) :
  seek marker out = [] -> Forall (fun l => contains marker l = false) out.
Proof.
  induction out as [|l out IH]; simpl; [constructor|].
  destruct (contains marker l) eqn:Hl; [done|]. intros H. constructor; auto.
Qed.

Lemma collect_modes_incl (out modes : list string) :
  incl (snd (collect_modes out modes)) out.
Proof.
  revert modes. induction out as [|l out IH]; intros modes; simpl;
    [apply incl_refl|].
  destruct (is_empty (strip l)); simpl; [apply incl_refl|].
  destruct (re_match mode_re (strip l)); by apply incl_tl.
Qed.

Lemma block_modes_incl (rest : list string) :
  incl (snd (block_modes rest)) rest.
Proof.
  unfold block_modes. pose proof (seek_incl "modes:" rest) as Hs.
  destruct (seek "modes:" rest) as [|l rest']; simpl; [by intros ? []|].
  destruct (contains "modes:" l); simpl; [|exact Hs].
  intros x Hx. apply Hs. right. by apply (collect_modes_incl rest' []).
Qed.

Lemma collect_modes_names (out modes : list string) :
  Forall is_mode_name modes ->
  Forall is_mode_name (fst (collect_modes out modes)).
Proof.
  revert modes. induction out as [|l out IH]; intros modes Hm; simpl; [done|].
  destruct (is_empty (strip l)); simpl; [done|].
  destruct (re_match mode_re (strip l)) as [mm|] eqn:Hmm; [|by apply IH].
  apply IH. apply Forall_app. split; [done|].
  constructor; [|constructor]. by apply (mode_group (strip l)).
Qed.

Lemma block_modes_names (rest : list string) :
  Forall is_mode_name (fst (block_modes rest)).
Proof.
  unfold block_modes.
  destruct (seek "modes:" rest) as [|l rest']; simpl; [constructor|].
  destruct (contains "modes:" l); simpl; [|constructor].
  apply collect_modes_names. constructor.
Qed.

Lemma parse_blocks_fuel_rows (orig : list string) :
  forall (fuel : nat) (out : list string) (acc : list connector),
    incl out orig ->
    Forall (fun c => wellformed c /\ exists line, In line orig /\ from_row line c) acc ->
    Forall (fun c => wellformed c /\ exists line, In line orig /\ from_row line c)
           (parse_blocks_fuel fuel out acc).
Proof.
  induction fuel as [|fuel IH]; intros out acc Hout Hacc; simpl; [done|].
  destruct out as [|line rest]; [done|].
  assert (Hrest : incl rest orig) by (intros x Hx; apply Hout; by right).
  destruct (is_empty (strip line)) eqn:Hblank; [by apply IH|].
  destruct (re_match row_re line) as [m|] eqn:Hm; [|by apply IH].
  pose proof (block_modes_incl rest) as Hincl.
  pose proof (block_modes_names rest) as Hnames.
  destruct (block_modes rest) as [modes out']. simpl in Hincl, Hnames.
  apply IH; [by eapply incl_tran|].
  apply Forall_app. split; [done|]. constructor; [|constructor].
  destruct (row_groups line m Hm) as ((Hd & _) & (Hw & Hwn) & (Hs & Hsn)).
  split.
  - unfold wellformed. simpl. repeat split; auto using int_digits_nonneg.
  - exists line. split; [apply Hout; by left|].
    split; [done|]. by exists m.
Qed.

(** X1. The listing is "unavailable" for want of a header only: a report
    parses to [None] exactly when none of its lines holds "Connectors:".
    A report whose header is its last line parses to the empty list. *)
Theorem parse_report_none_iff :
  (forall out : list string,
      parse_report out = None
      <-> Forall (fun l => contains "Connectors:" l = false) out)
  /\ (forall (pre : list string) (header : string),
         Forall (fun l => contains "Connectors:" l = false) pre ->
         contains "Connectors:" header = true ->
         parse_report (pre ++ [header]) = Some []).
Proof.
  split; [split|].
  - unfold parse_report. intros H.
    destruct (seek "Connectors:" out) as [|l out1] eqn:Hs; [|done].
    by apply seek_nil.
  - intros H. unfold parse_report. by rewrite seek_none.
  - intros pre header Hpre Hh. unfold parse_report.
    rewrite seek_skip by exact Hpre. simpl. by rewrite Hh.
Qed.

Lemma parse_report_none_iff_witness :
  parse_report ["Encoders:"; "Connectors:"] = Some []
  /\ parse_report ["Encoders:"; "31 0 TMDS"] = None.
Proof.
  destruct parse_report_none_iff as [Hiff Hlast]. split.
  - apply (Hlast ["Encoders:"] "Connectors:"); [repeat constructor|reflexivity].
  - apply (proj2 (Hiff ["Encoders:"; "31 0 TMDS"])). repeat constructor.
Defined.

(** X2. Every connector the parser returns comes from a line of the
    report that is not blank and has the row shape, and carries that row's
    id, status and type; its id is not negative, its status is a non-empty
    run of word characters, its type a non-empty run of characters that are
    not white space, and each of its modes is digits, "x", digits. *)
Theorem parsed_connectors_from_rows (out : list string) (cs : list connector) :
  parse_report out = Some cs ->
  Forall (fun c => wellformed c /\ exists line, In line out /\ from_row line c) cs.
Proof.
  unfold parse_report. pose proof (seek_incl "Connectors:" out) as Hs.
  destruct (seek "Connectors:" out) as [|header out1]; [done|].
  intros [= <-]. apply parse_blocks_fuel_rows; [|constructor].
  assert (H1 : incl out1 out) by (intros x Hx; apply Hs; by right).
  destruct out1 as [|line rest]; [exact H1|].
  destruct (startswith "id" (strip line)); [|exact H1].
  intros x Hx. apply H1. by right.
Qed.

Lemma parsed_connectors_from_rows_witness :
  Forall (fun c => wellformed c
                   /\ exists line, In line (splitlines sample_report_tabs)
                                   /\ from_row line c)
         [sample_connector].
Proof.
  apply (parsed_connectors_from_rows (splitlines sample_report_tabs)).
  vm_compute. reflexivity.
Defined.

(** X3. After a row the parser looks for the next line that holds
    "modes:" and takes no notice of the lines before it, rows of other
    connectors among them: the row gets the modes of that block, and the
    parse goes on after the block. *)
Theorem lines_before_modes_ignored (line : string) (m : list string)
        (mid : list string) (marker : string) (rest : list string)
        (acc : list connector) :
  is_empty (strip line) = false ->
  re_match row_re line = Some m ->
  Forall (fun l => contains "modes:" l = false) mid ->
  contains "modes:" marker = true ->
  parse_blocks (line :: mid ++ marker :: rest) acc
  = parse_blocks (snd (collect_modes rest []))
      (acc ++ [Connector (int_digits (group 1 m)) (group 4 m) (group 3 m)
                         (fst (collect_modes rest []))]).
Proof.
  intros Hb Hm Hmid Hmark. rewrite (parse_blocks_row line _ acc m Hb Hm).
  unfold block_modes. rewrite seek_skip by exact Hmid.
  simpl seek. rewrite Hmark. cbv beta iota. by rewrite Hmark.
Qed.

Lemma lines_before_modes_ignored_witness :
  parse_blocks ("29 10 connected HDMI-A"
                  :: ["  props:"; "31 0 disconnected HDMI-B"]
                  ++ "  modes:" :: ["  1920x1080 60"; ""; "33 0 connected DSI-1"]) []
  = [ Connector 29 "HDMI-A" "connected" ["1920x1080"];
      Connector 33 "DSI-1" "connected" [] ].
Proof.
  rewrite (lines_before_modes_ignored "29 10 connected HDMI-A"
             ["29"; "10"; "connected"; "HDMI-A"]
             ["  props:"; "31 0 disconnected HDMI-B"] "  modes:"
             ["  1920x1080 60"; ""; "33 0 connected DSI-1"] []);
    [vm_compute; reflexivity|reflexivity|reflexivity|repeat constructor|reflexivity].
Defined.

(** X4. A row with no line holding "modes:" anywhere after it ends the
    parse: it gives a connector without modes, and no line after it gives
    a connector. *)
Theorem row_without_modes_is_last (line : string) (m : list string)
        (rest : list string) (acc : list connector) :
  is_empty (strip line) = false ->
  re_match row_re line = Some m ->
  Forall (fun l => contains "modes:" l = false) rest ->
  parse_blocks (line :: rest) acc
  = (acc ++ [Connector (int_digits (group 1 m)) (group 4 m) (group 3 m) []])%list.
Proof.
  intros Hb Hm Hrest. rewrite (parse_blocks_row line _ acc m Hb Hm).
  unfold block_modes. by rewrite seek_none.
Qed.

Lemma row_without_modes_is_last_witness :
  parse_blocks ["31 0 disconnected HDMI-B"; "  props:"; "33 0 connected DSI-1"] []
  = [Connector 31 "HDMI-B" "disconnected" []].
Proof.
  apply (row_without_modes_is_last "31 0 disconnected HDMI-B"
           ["31"; "0"; "disconnected"; "HDMI-B"]
           ["  props:"; "33 0 connected DSI-1"] []);
    [reflexivity|reflexivity|repeat constructor].
Defined.

End ReportParser.

(** ** The records of the sysfs scan *)

Section SysfsRecords.

Lemma rstrip_idem (s : string) : rstrip (rstrip s) = rstrip s.
Proof.
  induction s as [|c s IH]; simpl; [done|].
  destruct (rstrip s) as [|c' r] eqn:Hr.
  - destruct (isspace c) eqn:Hc; simpl; [done|]. by rewrite Hc.
  - change (rstrip (String c (String c' r)))
      with (match rstrip (String c' r) with
            | EmptyString => if isspace c then EmptyString else String c EmptyString
            | r0 => String c r0
            end).
    by rewrite IH.
Qed.

Lemma rstrip_head (c : ascii) (s : string) :
  rstrip (String c s) = EmptyString
  \/ exists r, rstrip (String c s) = String c r.
Proof.
  simpl. destruct (rstrip s) as [|c' r]; [|by eauto].
  destruct (isspace c); eauto.
Qed.

Lemma lstrip_head (s : string) :
  lstrip s = EmptyString
  \/ exists c r, lstrip s = String c r /\ isspace c = false.
Proof.
  induction s as [|c s IH]; simpl; [by left|].
  destruct (isspace c) eqn:Hc; [exact IH|]. right. by exists c, s.
Qed.

(** [strip] leaves nothing to strip. *)
Lemma strip_idem (s : string) : strip (strip s) = strip s.
Proof.
  unfold strip. destruct (lstrip_head s) as [->|(c & r & -> & Hc)]; [done|].
  destruct (rstrip_head c r) as [->|[r' Hr]]; [done|].
  rewrite Hr. simpl lstrip. rewrite Hc. rewrite <- Hr. apply rstrip_idem.
Qed.

Lemma scan_entries_forall (P : sys_connector -> Prop) (w : world) (d : string) :
  (forall entry, is_connector_entry entry = true -> P (connector_info w d entry)) ->
  forall (entries : list string) (acc : list sys_connector),
    Forall P acc -> Forall P (scan_entries w d entries acc).
Proof.
  intros HP. induction entries as [|e entries IH]; intros acc Hacc; simpl; [done|].
  destruct (is_connector_entry e) eqn:He; [|by apply IH].
  apply IH. apply Forall_app. split; [done|]. constructor; [by apply HP|constructor].
Qed.

Lemma scan_returned (w : world) (conns : list sys_connector) :
  result (list_sys_drm_connectors w) = Returned conns ->
  conns = []
  \/ exists entries, conns = scan_entries w "/sys/class/drm" entries [].
Proof.
  unfold list_sys_drm_connectors.
  destruct (isdir w "/sys/class/drm"); simpl; [|intros [= <-]; by left].
  destruct (listdir w "/sys/class/drm") as [entries|]; simpl; [|done].
  intros [= <-]. right. by exists (sorted entries).
Qed.

Lemma connector_entry_path (entry : string) :
  is_connector_entry entry = true ->
  path_join "/sys/class/drm" entry = "/sys/class/drm/" ++ entry.
Proof.
  unfold is_connector_entry, startswith. intros [Hc _]%andb_true_iff.
  destruct entry as [|c entry]; [discriminate Hc|].
  change (String.prefix "card" (String c entry))
    with (if ascii_dec "c"%char c then String.prefix "ard" entry else false) in Hc.
  destruct (ascii_dec "c"%char c) as [<-|]; [reflexivity|discriminate Hc].
Qed.

(** X5. Every record of the sysfs scan has the path of its own directory,
    "/sys/class/drm/" followed by its name. *)
Theorem sysfs_connector_paths (w : world) (conns : list sys_connector) :
  result (list_sys_drm_connectors w) = Returned conns ->
  Forall (fun c => path c = "/sys/class/drm/" ++ name c) conns.
Proof.
  intros [->|[entries ->]]%scan_returned; [constructor|].
  apply scan_entries_forall; [|constructor].
  intros entry He. simpl. by apply connector_entry_path.
Qed.

Lemma sysfs_connector_paths_witness :
  Forall (fun c => path c = "/sys/class/drm/" ++ name c) sysfs_demo_connectors.
Proof.
  apply (sysfs_connector_paths sysfs_demo). vm_compute. reflexivity.
Defined.

(** X6. In every record of the sysfs scan the status has no white space
    around it, whether it was read or is the default "unknown"; and a first
    mode, when there is one, is not empty and has no white space around
    it. *)
Theorem sysfs_fields_stripped (w : world) (conns : list sys_connector) :
  result (list_sys_drm_connectors w) = Returned conns ->
  Forall (fun c => strip (status c) = status c
                   /\ forall m, first_mode c = Some m -> m <> "" /\ strip m = m)
         conns.
Proof.
  intros [->|[entries ->]]%scan_returned; [constructor|].
  apply scan_entries_forall; [|constructor].
  intros entry _. unfold connector_info. simpl. split.
  - destruct (read_text w _); [apply strip_idem|reflexivity].
  - intros m. destruct (read_text w _) as [text|]; [|done].
    destruct (List.map strip _) as [|m0 ms] eqn:Hmap; [done|].
    intros [= ->].
    assert (Hin : In m (List.map strip
                     (List.filter (fun ln => negb (is_empty (strip ln)))
                                  (readlines text)))).
    { rewrite Hmap. by left. }
    apply List.in_map_iff in Hin as (ln & <- & Hln).
    apply List.filter_In in Hln as [_ Hne]. split; [|apply strip_idem].
    intros Heq. by rewrite Heq in Hne.
Qed.

Lemma sysfs_fields_stripped_witness :
  Forall (fun c => strip (status c) = status c
                   /\ forall m, first_mode c = Some m -> m <> "" /\ strip m = m)
         sysfs_demo_connectors.
Proof.
  apply (sysfs_fields_stripped sysfs_demo). vm_compute. reflexivity.
Defined.

Lemma scan_entries_ext (w w' : world) (d : string) :
  (forall p, read_text w p = read_text w' p) ->
  forall (entries : list string) (acc : list sys_connector),
    scan_entries w d entries acc = scan_entries w' d entries acc.
Proof.
  intros Hread. induction entries as [|e entries IH]; intros acc; simpl; [done|].
  destruct (is_connector_entry e); [|apply IH].
  unfold connector_info. rewrite !Hread. apply IH.
Qed.

(** X7. The scan does not depend on the order in which the directory is
    listed: two worlds that differ only by a rearrangement of the listing
    give the same records in the same order. *)
Theorem sysfs_scan_order_independent (w w' : world) (entries entries' : list string) :
  isdir w "/sys/class/drm" = isdir w' "/sys/class/drm" ->
  (forall p, read_text w p = read_text w' p) ->
  listdir w "/sys/class/drm" = Some entries ->
  listdir w' "/sys/class/drm" = Some entries' ->
  entries ≡ₚ entries' ->
  list_sys_drm_connectors w = list_sys_drm_connectors w'.
Proof.
  intros Hdir Hread Hl Hl' Hperm. unfold list_sys_drm_connectors.
  rewrite Hdir, Hl, Hl'. destruct (isdir w' "/sys/class/drm"); simpl; [|done].
  assert (Hs : sorted entries = sorted entries').
  { apply sorted_unique; [apply sorted_strongly|].
    by rewrite sorted_perm. }
  rewrite Hs. by rewrite (scan_entries_ext w w' "/sys/class/drm" Hread).
Qed.

Lemma sysfs_scan_order_independent_witness :
  list_sys_drm_connectors sysfs_demo
  = list_sys_drm_connectors
      (World (which sysfs_demo) (path_exists sysfs_demo) (isdir sysfs_demo)
             (fun _ => Some ["renderD128"; "version"; "card0-HDMI-A-2"; "card0";
                             "card0-HDMI-A-1"])
             (read_text sysfs_demo) (run sysfs_demo) (environ sysfs_demo)
             (popen sysfs_demo)).
Proof.
  apply (sysfs_scan_order_independent _ _
           ["version"; "renderD128"; "card0-HDMI-A-2"; "card0"; "card0-HDMI-A-1"]
           ["renderD128"; "version"; "card0-HDMI-A-2"; "card0"; "card0-HDMI-A-1"]);
    try reflexivity.
  apply perm_swap.
Defined.

(** Printing a list line by line. *)
Lemma for_each_print (A : Type) (xs : list A) (f : A -> message) :
  for_each xs (fun x => print (f x))
  = Prog (List.map (fun x => EvPrint (f x)) xs) (Returned tt).
Proof.
  induction xs as [|x xs IH]; [done|].
  simpl for_each. rewrite IH. reflexivity.
Qed.

(** X8. The sysfs inventory is printed as one line per connector, in the
    order of the list, under one header line; an empty inventory prints the
    single line that says so. Nothing else is done, and the call returns. *)
Theorem print_sys_connectors_lines (conn : list sys_connector) :
  print_sys_connectors conn
  = Prog (match conn with
          | [] => [EvPrint MsgNoSysConnectors]
          | _ => EvPrint MsgSysHeader
                   :: List.map (fun c => EvPrint (MsgSysConnector (name c) (status c)
                                                                  (first_mode c)))
                               conn
          end)
         (Returned tt).
Proof.
  destruct conn as [|c conn]; [done|].
  unfold print_sys_connectors.
  rewrite (for_each_print _ (c :: conn)
             (fun c => MsgSysConnector (name c) (status c) (first_mode c))).
  reflexivity.
Qed.

End SysfsRecords.

(** ** The launcher as a whole *)

Section LauncherWhole.

Variables (w : world) (video : string) (detach : bool).

(** An attempt returns a code, raises, or blocks in [proc.wait()]; it
    raises exactly as [attempt_exn] says. *)
Lemma try_play_result (n : nat) (env : gmap string string) (tp : Z) :
  match result (try_play_ffplay w n video env detach tp) with
  | Returned _ => attempt_exn w n = None
  | Raised e => attempt_exn w n = Some e
  | Exited _ => False
  | Blocked => detach = false /\ attempt_exn w n = None
  end.
Proof.
  unfold try_play_ffplay, attempt_exn.
  destruct (find_ffplay w) as [ffplay|]; simpl; [|done].
  destruct (popen w n) as [e|pid [code|final]]; simpl; try done.
  destruct detach; simpl; [done|]. by destruct final.
Qed.

Lemma try_play_events (n : nat) (env : gmap string string) :
  Forall (launcher_event detach) (trace (try_play_ffplay w n video env detach 2)).
Proof.
  unfold try_play_ffplay.
  destruct (find_ffplay w) as [ffplay|]; simpl; [|constructor].
  destruct (popen w n) as [e|pid [code|final]]; simpl.
  - repeat constructor.
  - repeat constructor.
  - destruct detach eqn:Hd; simpl; [repeat constructor|].
    destruct final; simpl; repeat constructor.
Qed.

(** A property of events that holds in every attempt and of every report
    holds along the whole loop. *)
Lemma try_backends_forall (P : event -> Prop) :
  (forall n b, P (EvOverlay n b (backend_overlay w b))) ->
  (forall n b, Forall P (trace (try_play_ffplay w n video (backend_overlay w b)
                                                detach 2))) ->
  (forall m, P (EvPrint m)) ->
  forall (cands : list string) (n : nat) (last_err : option exn),
    Forall P (trace (try_backends w video detach n cands last_err)).
Proof.
  intros Hov Hplay Hprint.
  induction cands as [|b rest IH]; intros n last_err.
  - simpl. destruct last_err; repeat constructor; apply Hprint.
  - rewrite try_backends_step. cbv zeta.
    assert (Hhead : Forall P (EvOverlay n b (backend_overlay w b)
              :: trace (try_play_ffplay w n video (backend_overlay w b) detach 2))).
    { constructor; [apply Hov|apply Hplay]. }
    destruct (result (try_play_ffplay w n video (backend_overlay w b) detach 2))
      as [rc|e|c|].
    + destruct (rc =? 0); cbn [trace]; [exact Hhead|].
      apply Forall_app. split; [exact Hhead|]. constructor; [apply Hprint|apply IH].
    + cbn [trace]. apply Forall_app. split; [exact Hhead|].
      constructor; [apply Hprint|apply IH].
    + exact Hhead.
    + exact Hhead.
Qed.

Lemma try_backends_result (cands : list string) :
  forall (n : nat) (last_err : option exn),
    result (try_backends w video detach n cands last_err) = Returned tt
    \/ result (try_backends w video detach n cands last_err) = Exited 3
    \/ (result (try_backends w video detach n cands last_err) = Blocked
        /\ detach = false).
Proof.
  induction cands as [|b rest IH]; intros n last_err.
  - right. left. simpl. by destruct last_err.
  - rewrite try_backends_step. cbv zeta.
    pose proof (try_play_result n (backend_overlay w b) 2) as Hres.
    destruct (result (try_play_ffplay w n video (backend_overlay w b) detach 2))
      as [rc|e|c|].
    + destruct (rc =? 0); cbn [result]; [by left|apply IH].
    + cbn [result]. apply IH.
    + done.
    + right. right. by destruct Hres.
Qed.

End LauncherWhole.

Section LauncherWholeClaims.

(** X9. The launcher never lets an exception out and never ends the
    program with a status other than 3: it returns, or exits with 3, or
    stays blocked in [proc.wait()], and the last only without [detach]. *)
Theorem launch_outcomes (w : world) (video : string) (cands : list string)
        (detach : bool) :
  result (launch w video cands detach) = Returned tt
  \/ result (launch w video cands detach) = Exited 3
  \/ (result (launch w video cands detach) = Blocked /\ detach = false).
Proof. apply try_backends_result. Qed.

(** X10. The launcher runs no tool through [subprocess.run], sleeps only
    for the two seconds of a probe, and calls [proc.wait()] only when it
    does not detach. *)
Theorem launch_process_discipline (w : world) (video : string)
        (cands : list string) (detach : bool) :
  Forall (launcher_event detach) (trace (launch w video cands detach)).
Proof.
  apply try_backends_forall; try done.
  intros n b. apply try_play_events.
Qed.

End LauncherWholeClaims.

(** ** The trace of the launcher and how it ends *)

Section LauncherTrace.

Variables (w : world) (video : string) (detach : bool).

Lemma try_play_attempt_events (n : nat) (env : gmap string string) (tp : Z) :
  forallb attempt_event (trace (try_play_ffplay w n video env detach tp)) = true.
Proof.
  unfold try_play_ffplay.
  destruct (find_ffplay w) as [ffplay|]; simpl; [|done].
  destruct (popen w n) as [e|pid [code|final]]; simpl; try done.
  destruct detach; simpl; [done|]. by destruct final.
Qed.

Lemma attempt_events_quiet (t : list event) :
  forallb attempt_event t = true ->
  failures t = [] /\ overlays t = []
  /\ ~ In (EvPrint MsgAllFailed) t
  /\ forall e, ~ In (EvPrint (MsgLastError e)) t.
Proof.
  induction t as [|x t IH]; simpl; [by auto|].
  intros [Hx Ht]%andb_true_iff. destruct (IH Ht) as (Hf & Ho & Ha & Hl).
  split; [|split; [|split]].
  - unfold failures in *. simpl. rewrite Hf.
    by destruct x as [[]| | | | | |].
  - unfold overlays in *. simpl. rewrite Ho.
    by destruct x as [[]| | | | | |].
  - intros [->|H]; [done|by apply Ha].
  - intros e [->|H]; [done|by apply (Hl e)].
Qed.

Lemma failures_app (t1 t2 : list event) :
  failures (t1 ++ t2) = (failures t1 ++ failures t2)%list.
Proof. apply omap_app. Qed.

Lemma overlays_app (t1 t2 : list event) :
  overlays (t1 ++ t2) = (overlays t1 ++ overlays t2)%list.
Proof. apply omap_app. Qed.

Lemma try_backends_shape (cands : list string) :
  forall (n : nat) (last_err : option exn),
    let p := try_backends w video detach n cands last_err in
    let k := length (failures (trace p)) in
    List.map fst (failures (trace p)) = firstn k cands
    /\ (result p = Exited 3 ->
        k = length cands /\ overlays (trace p) = cands
        /\ In (EvPrint MsgAllFailed) (trace p)
        /\ forall e, In (EvPrint (MsgLastError e)) (trace p)
                     <-> last_exn w n (length cands) last_err = Some e)
    /\ (result p <> Exited 3 ->
        (k < length cands)%nat /\ overlays (trace p) = firstn (S k) cands
        /\ ~ In (EvPrint MsgAllFailed) (trace p)).
Proof.
  induction cands as [|b rest IH]; intros n last_err; cbv zeta.
  - simpl. destruct last_err as [e0|]; simpl.
    + split; [done|]. split; [|done]. intros _.
      repeat split; auto.
      * intros [|[[= ->]|[]]]; done.
      * intros [= ->]. auto.
    + split; [done|]. split; [|done]. intros _.
      repeat split; auto; [intros [|[]]|]; done.
  - rewrite try_backends_step. cbv zeta.
    pose proof (try_play_result w video detach n (backend_overlay w b) 2) as Hres.
    pose proof (attempt_events_quiet _
                  (try_play_attempt_events n (backend_overlay w b) 2))
      as (Hf & Ho & Ha & Hl).
    set (pt := trace (try_play_ffplay w n video (backend_overlay w b) detach 2)) in *.
    assert (Hstop : let t := EvOverlay n b (backend_overlay w b) :: pt in
              failures t = [] /\ overlays t = [b]
              /\ ~ In (EvPrint MsgAllFailed) t).
    { cbv zeta. split; [exact Hf|]. split.
      - change (b :: overlays pt = [b]). by rewrite Ho.
      - intros [|]; done. }
    assert (Hgo : forall rc le,
              (attempt_exn w n = None /\ le = last_err
               \/ attempt_exn w n = Some (default not_found le) /\ is_Some le) ->
              let next := try_backends w video detach (S n) rest le in
              let t := ((EvOverlay n b (backend_overlay w b) :: pt)
                          ++ EvPrint (MsgBackendFailed b rc) :: trace next)%list in
              let k := length (failures t) in
              List.map fst (failures t) = firstn k (b :: rest)
              /\ (result next = Exited 3 ->
                  k = length (b :: rest) /\ overlays t = b :: rest
                  /\ In (EvPrint MsgAllFailed) t
                  /\ forall e, In (EvPrint (MsgLastError e)) t
                               <-> last_exn w n (length (b :: rest)) last_err = Some e)
              /\ (result next <> Exited 3 ->
                  (k < length (b :: rest))%nat
                  /\ overlays t = firstn (S k) (b :: rest)
                  /\ ~ In (EvPrint MsgAllFailed) t)).
    { intros rc le Hle. cbv zeta.
      destruct (IH (S n) le) as (IH1 & IH2 & IH3).
      destruct Hstop as (Hsf & Hso & Hsa).
      rewrite failures_app, overlays_app, Hsf, Hso.
      change (failures (EvPrint (MsgBackendFailed b rc)
                          :: trace (try_backends w video detach (S n) rest le)))
        with ((b, rc) :: failures (trace (try_backends w video detach (S n) rest le))).
      change (overlays (EvPrint (MsgBackendFailed b rc)
                          :: trace (try_backends w video detach (S n) rest le)))
        with (overlays (trace (try_backends w video detach (S n) rest le))).
      cbn [length List.map firstn fst app]. split; [by rewrite IH1|]. split.
      - intros Hex. destruct (IH2 Hex) as (Hk & Hov & Hall & Hlast).
        split; [by rewrite Hk|]. split; [by rewrite Hov|].
        split; [right; apply in_or_app; right; by right|].
        intros e.
        assert (Hle' : match attempt_exn w n with
                       | Some e0 => Some e0
                       | None => last_err
                       end = le).
        { destruct Hle as [[-> ->]|[-> [e0 ->]]]; done. }
        change (last_exn w n (S (length rest)) last_err)
          with (last_exn w (S n) (length rest)
                         (match attempt_exn w n with
                          | Some e0 => Some e0
                          | None => last_err
                          end)).
        rewrite Hle', <- (Hlast e). split.
        + intros [|Hin]; [done|].
          apply in_app_or in Hin as [Hin|[|Hin]]; [by apply Hl in Hin|done|done].
        + intros Hin. right. apply in_or_app. right. by right.
      - intros Hne. destruct (IH3 Hne) as (Hk & Hov & Hall).
        split; [lia|]. split; [by rewrite Hov|].
        intros [|Hin]; [done|].
        apply in_app_or in Hin as [Hin|[|Hin]]; [by apply Ha in Hin|done|done]. }
    destruct (result (try_play_ffplay w n video (backend_overlay w b) detach 2))
      as [rc|e|c|].
    + destruct (rc =? 0); cbn [trace result].
      * destruct Hstop as (Hsf & Hso & Hsa). rewrite Hsf, Hso. simpl.
        split; [done|]. split; [done|]. intros _. split; [lia|done].
      * apply (Hgo rc last_err). by left.
    + cbn [trace result]. apply (Hgo 1 (Some e)). right. split; [done|by eexists].
    + done.
    + cbn [trace result]. destruct Hstop as (Hsf & Hso & Hsa). rewrite Hsf, Hso. simpl.
      split; [done|]. split; [done|]. intros _. split; [lia|done].
Qed.

End LauncherTrace.

Section LauncherTraceClaims.

(** X11. Failures are reported for the candidates in the order of the list,
    none skipped. The launcher ends with exit status 3 exactly when it
    prints that all back ends failed, and then every candidate had its
    overlay built and was reported as failed; when it ends otherwise, one
    overlay more was built than failures were reported: that of the
    candidate it stopped at. *)
Theorem launch_reports_by_outcome (w : world) (video : string)
        (cands : list string) (detach : bool) :
  List.map fst (failures (trace (launch w video cands detach)))
  = firstn (length (failures (trace (launch w video cands detach)))) cands
  /\ (result (launch w video cands detach) = Exited 3
      <-> In (EvPrint MsgAllFailed) (trace (launch w video cands detach)))
  /\ (result (launch w video cands detach) = Exited 3 ->
      length (failures (trace (launch w video cands detach))) = length cands
      /\ overlays (trace (launch w video cands detach)) = cands)
  /\ (result (launch w video cands detach) <> Exited 3 ->
      (length (failures (trace (launch w video cands detach))) < length cands)%nat
      /\ overlays (trace (launch w video cands detach))
         = firstn (S (length (failures (trace (launch w video cands detach))))) cands).
Proof.
  destruct (try_backends_shape w video detach cands 0 None) as (H1 & H2 & H3).
  unfold launch. split; [exact H1|]. split; [split|split].
  - intros Hex. by destruct (H2 Hex) as (_ & _ & Hall & _).
  - intros Hin.
    destruct (try_backends_result w video detach cands 0 None)
      as [Hr|[Hr|[Hr _]]]; [|done|].
    + destruct H3 as (_ & _ & Hno); [by rewrite Hr|done].
    + destruct H3 as (_ & _ & Hno); [by rewrite Hr|done].
  - intros Hex. by destruct (H2 Hex) as (Hk & Hov & _).
  - intros Hne. by destruct (H3 Hne) as (Hk & Hov & _).
Qed.

Lemma launch_reports_by_outcome_witness :
  overlays (trace (launch mixed_world "movie.mp4" ["kmsdrm"; "fbcon"] false))
  = ["kmsdrm"; "fbcon"]
  /\ overlays (trace (launch (player_world (ExitsEarly 0)) "movie.mp4"
                             ["kmsdrm"; "fbcon"] false))
     = firstn 1 ["kmsdrm"; "fbcon"].
Proof.
  split.
  - destruct (launch_reports_by_outcome mixed_world "movie.mp4"
                ["kmsdrm"; "fbcon"] false) as (_ & _ & H & _).
    destruct H as [_ H]; [vm_compute; reflexivity|exact H].
  - destruct (launch_reports_by_outcome (player_world (ExitsEarly 0)) "movie.mp4"
                ["kmsdrm"; "fbcon"] false) as (_ & _ & _ & H).
    destruct H as [_ H]; [vm_compute; discriminate|].
    rewrite H. vm_compute. reflexivity.
Defined.

(** X12. When all candidates have failed, the line "last error" is printed
    exactly when some attempt raised an exception (the player missing, or
    [Popen] failing), and it shows the exception of the last attempt that
    did. The exit codes of children that ran are not in this last report:
    when no attempt raised, no such line is printed. *)
Theorem launch_last_error (w : world) (video : string) (cands : list string)
        (detach : bool) (e : exn) :
  result (launch w video cands detach) = Exited 3 ->
  (In (EvPrint (MsgLastError e)) (trace (launch w video cands detach))
   <-> last_exn w 0 (length cands) None = Some e).
Proof.
  intros Hex.
  destruct (try_backends_shape w video detach cands 0 None) as (_ & H2 & _).
  destruct (H2 Hex) as (_ & _ & _ & Hlast). apply Hlast.
Qed.

Lemma launch_last_error_witness :
  In (EvPrint (MsgLastError (OSError "exec format error")))
     (trace (launch mixed_world "movie.mp4" ["kmsdrm"; "fbcon"] false))
  /\ ~ In (EvPrint (MsgLastError (OSError "exec format error")))
          (trace (launch (player_world (ExitsEarly 1)) "movie.mp4"
                         ["kmsdrm"; "fbcon"] false)).
Proof.
  split.
  - apply (launch_last_error mixed_world "movie.mp4" ["kmsdrm"; "fbcon"] false);
      vm_compute; reflexivity.
  - intros Hin.
    apply (launch_last_error (player_world (ExitsEarly 1)) "movie.mp4"
             ["kmsdrm"; "fbcon"] false) in Hin; [|vm_compute; reflexivity].
    vm_compute in Hin. discriminate Hin.
Defined.

Lemma player_env_lookup (w : world) (overlay : gmap string string) (k : string) :
  player_env w overlay !! k
  = match overlay !! k with
    | Some v => Some v
    | None => environ w !! k
    end.
Proof.
  unfold player_env. destruct (decide (overlay = ∅)) as [->|_].
  - by rewrite lookup_empty.
  - rewrite lookup_union. by destruct (overlay !! k), (environ w !! k).
Qed.

Lemma try_backends_commands (w : world) (video : string) (detach : bool)
      (cands : list string) (n : nat) (last_err : option exn) :
  Forall (fun e => match e with
                   | EvPopen _ cmd _ _ =>
                       exists ffplay, find_ffplay w = Some ffplay
                                      /\ cmd = [ffplay; "-fs"; "-autoexit";
                                                "-hide_banner"; "-loglevel"; "error";
                                                video]
                   | _ => True
                   end)
         (trace (try_backends w video detach n cands last_err)).
Proof.
  apply try_backends_forall; try done.
  intros m b. unfold try_play_ffplay.
  destruct (find_ffplay w) as [ffplay|]; simpl; [|constructor].
  assert (Hcmd : exists ffplay0, Some ffplay = Some ffplay0
            /\ [ffplay; "-fs"; "-autoexit"; "-hide_banner"; "-loglevel"; "error";
                video]
               = [ffplay0; "-fs"; "-autoexit"; "-hide_banner"; "-loglevel"; "error";
                  video]) by (by exists ffplay).
  destruct (popen w m) as [e|pid [code|final]]; simpl.
  - repeat constructor; done.
  - repeat constructor; done.
  - destruct detach; simpl; [repeat constructor; done|].
    destruct final; simpl; repeat constructor; done.
Qed.

(** X13. Every child the launcher starts is started the same way: the
    [ffplay] found on the search path with the flags [-fs -autoexit
    -hide_banner -loglevel error] and the video as last argument; in a new
    session exactly when detaching; and in an environment that has the
    overlay of its candidate laid over [os.environ], so that every variable
    the overlay does not set keeps its value. *)
Theorem launch_popen_arguments (w : world) (video : string)
        (cands : list string) (detach : bool) :
  Forall (popen_as_for w video detach cands) (trace (launch w video cands detach)).
Proof.
  apply Forall_forall. intros e He. apply list_elem_of_In in He.
  pose proof (try_backends_overlays w video detach cands 0 None e He) as Hov.
  pose proof (try_backends_commands w video detach cands 0 None) as Hcmd.
  rewrite List.Forall_forall in Hcmd. specialize (Hcmd e He).
  destruct e as [| | |m cmd env setsid| | |]; try done.
  destruct Hov as (_ & Hs & b & Hb & Henv). rewrite Nat.sub_0_r in Hb.
  split; [done|]. split; [done|].
  exists b. split; [done|]. intros k. rewrite Henv. apply player_env_lookup.
Qed.

End LauncherTraceClaims.

(** ** Before playing: the connector and its mode *)

Section PrepareConnector.

Lemma result_bind {A B : Type} (m : prog A) (k : A -> prog B) :
  result (m ≫= k)
  = match result m with
    | Returned a => result (k a)
    | Raised e => Raised e
    | Exited c => Exited c
    | Blocked => Blocked
    end.
Proof. unfold mbind, prog_bind. by destruct (result m). Qed.


(** X14. An attempt to set the mode never fails the program. With
    [modetest] missing nothing is run and "could not run" is reported;
    otherwise [sudo modetest -s id:mode] is run once: when it succeeds the
    program reports it and sleeps 0.8 s, when it ends with a nonzero code
    "modetest failed" is reported, and when it cannot be run "could not
    run" is. In every case the attempt returns. *)
Theorem set_mode_attempt_cases (w : world) (cid : Z) (mode : string) :
  set_mode_attempt w cid mode
  = match which w "modetest" with
    | None =>
        Prog [EvPrint (MsgCouldNotRun (RuntimeError
                "modetest not installed (libdrm-tests). Install it to use --connector-id forcing."))]
             (Returned tt)
    | Some modetest =>
        let cmd := set_mode_cmd modetest cid mode in
        match run w cmd with
        | Completed rc _ =>
            if rc =? 0
            then Prog [EvPrint (MsgRunning cmd); EvRun cmd;
                       EvPrint MsgModeSet; EvSleep 800] (Returned tt)
            else Prog [EvPrint (MsgRunning cmd); EvRun cmd;
                       EvPrint (MsgModetestFailed (CalledProcessError rc))]
                      (Returned tt)
        | CannotRun msg =>
            Prog [EvPrint (MsgRunning cmd); EvRun cmd;
                  EvPrint (MsgCouldNotRun (OSError msg))] (Returned tt)
        end
    end.
Proof.
  unfold set_mode_attempt, modetest_set_mode, subprocess_run, set_mode_cmd.
  destruct (which w "modetest") as [modetest|]; [|reflexivity].
  cbv zeta.
  destruct (run w ["sudo"; modetest; "-s"; show_int cid ++ ":" ++ mode])
    as [rc out|msg]; simpl; [|reflexivity].
  by destruct (rc =? 0).
Qed.












End PrepareConnector.

(** ** The program as a whole *)

Section WholeProgram.

Lemma print_sys_returns (conn : list sys_connector) :
  result (print_sys_connectors conn) = Returned tt.
Proof.
  destruct conn as [|c conn]; [done|]. unfold print_sys_connectors.
  rewrite result_bind. simpl.
  by rewrite (for_each_print _ conn
                (fun c => MsgSysConnector (name c) (status c) (first_mode c))).
Qed.

(** X16. [--list-connectors] works without [modetest]: the program prints
    the sysfs inventory, then the note that [modetest] is not available,
    runs no tool and no player, and ends with exit status 0, whatever its
    other arguments are. *)
Theorem list_connectors_without_modetest (w : world) (a : args) :
  list_connectors a = true ->
  which w "modetest" = None ->
  (isdir w "/sys/class/drm" = true -> is_Some (listdir w "/sys/class/drm")) ->
  exists conns,
    list_sys_drm_connectors w = Prog [] (Returned conns)
    /\ main w a = Prog (trace (print_sys_connectors conns)
                          ++ [EvPrint MsgModetestUnavailable])
                       (Returned tt)
    /\ exit_status (result (main w a)) = Some 0.
Proof.
  intros Hl Hw Hdir. destruct (sysfs_scan_returns w Hdir) as [conns Hc].
  exists conns. split; [exact Hc|].
  assert (Hmain : main w a = Prog (trace (print_sys_connectors conns)
                                     ++ [EvPrint MsgModetestUnavailable])
                                  (Returned tt)).
  { unfold main. rewrite Hl, Hc, (modetest_missing w Hw).
    unfold mbind, prog_bind. simpl. rewrite print_sys_returns. reflexivity. }
  split; [exact Hmain|]. by rewrite Hmain.
Qed.

Lemma list_connectors_without_modetest_witness :
  exists conns,
    list_sys_drm_connectors sysfs_demo = Prog [] (Returned conns)
    /\ main sysfs_demo (Args (Some "nowhere.mp4") true (Some 29) true Fbcon true)
       = Prog (trace (print_sys_connectors conns) ++ [EvPrint MsgModetestUnavailable])
              (Returned tt)
    /\ exit_status (result (main sysfs_demo
                              (Args (Some "nowhere.mp4") true (Some 29) true Fbcon true)))
       = Some 0.
Proof.
  apply (list_connectors_without_modetest sysfs_demo
           (Args (Some "nowhere.mp4") true (Some 29) true Fbcon true));
    [reflexivity|reflexivity|].
  intros _. by eexists.
Defined.




End WholeProgram.

(** ** Failing to start a tool or a child *)

Section StartFailures.


(** X19. When [Popen] raises, the attempt ends there, without sleeping or
    polling; the launcher reports the candidate as failed with code 1,
    keeps the exception as its last error, and goes on with the
    candidates that follow. *)
Theorem popen_failure_moves_on (w : world) (video : string) (detach : bool)
        (n : nat) (b : string) (rest : list string) (last_err : option exn)
        (ffplay : string) (e : exn) :
  find_ffplay w = Some ffplay ->
  popen w n = PopenRaises e ->
  try_backends w video detach n (b :: rest) last_err
  = Prog ((EvOverlay n b (backend_overlay w b)
             :: start_events w n ffplay video (backend_overlay w b) detach)
          ++ EvPrint (MsgBackendFailed b 1)
             :: trace (try_backends w video detach (S n) rest (Some e)))
         (result (try_backends w video detach (S n) rest (Some e))).
Proof.
  intros Hf Hp. rewrite try_backends_step. cbv zeta.
  by rewrite (try_play_popen_raises _ _ _ _ _ _ ffplay e Hf Hp).
Qed.

Lemma popen_failure_moves_on_witness :
  failures (trace (launch mixed_world "movie.mp4" ["kmsdrm"; "fbcon"] true))
  = [("kmsdrm", 1); ("fbcon", 1)].
Proof.
  unfold launch.
  rewrite (popen_failure_moves_on mixed_world "movie.mp4" true 0 "kmsdrm" ["fbcon"]
             None "/usr/bin/ffplay" (OSError "exec format error") eq_refl eq_refl).
  vm_compute. reflexivity.
Defined.

End StartFailures.
